(** * The [etl_movies_ratings] pipeline of [dags/etl_two_tables.py]

    A shallow embedding of the seven task callables of the DAG, of the
    relational store and of the three directories they touch, and of the
    dependency graph declared on the last line of the file, together with
    the properties stated about them.

    Modelling conventions.
    - A pandas [float64] value is an exact rational ([Q]); [NaN] and SQL
      [NULL] are [None].  Arithmetic is therefore exact: the embedding says
      nothing about binary rounding.
    - A [DataFrame] read from CSV is a list of named, typed columns.  The
      three relations of the store keep only the declared columns.
    - Strings are byte strings; [str.strip] is modelled on ASCII white space.
    - The file system is a finite map from the absolute paths of the three
      directories the DAG names to their nodes.
    - Every [print], and every traceback, appends a line to [log].
    - A task is atomic: tasks that may run in parallel are taken one after
      the other, in either order. *)

From Stdlib Require Import ZArith QArith Qabs String Ascii List Bool Lia.
From stdpp Require Import base option list gmap strings sorting.

Set Warnings "-register-all".

Local Open Scope string_scope.

(** ** Constants / Config *)

Definition DATA_DIR : string := "/opt/airflow/data".
Definition OUTPUT_DIR : string := "/opt/airflow/output".
(** [default_args["retries"]] *)
Definition retries : nat := 1.

(** ** Values *)

(** The dtypes pandas infers for a CSV column. *)
Inductive column :=
  | IntCol (xs : list Z)
  | FloatCol (xs : list (option Q))
  | ObjCol (xs : list (option string)).

Abbreviation frame := (list (string * column)).

Definition column_len (c : column) : nat :=
  match c with
  | IntCol xs => length xs
  | FloatCol xs => length xs
  | ObjCol xs => length xs
  end.

(** [len(df)] *)
Definition frame_len (df : frame) : nat :=
  match df with
  | [] => 0
  | (_, c) :: _ => column_len c
  end.

(** Every column has as many cells as the frame has rows. *)
Definition rectangular (df : frame) : bool :=
  forallb (fun kc => Nat.eqb (column_len kc.2) (frame_len df)) df.

Inductive exn :=
  | FileNotFoundError (path : string)
  | NotADirectoryError (path : string)
  | IsADirectoryError (path : string)
  | FileExistsError (path : string)
  | ParserError (path : string)
  | KeyError (key : string)
  | AttributeError (msg : string)
  | ValueError (msg : string)
  | ProgrammingError (relation : string)
  | RuntimeError (msg : string).

(** A pure operation that may raise. *)
#[global] Instance exn_bind : MBind (sum exn) := fun A B f r =>
  match r with inl e => inl e | inr a => f a end.

(** *** Rows of the three relations *)

Record movie := Movie { m_movie_id : Z; m_title : option string; m_year : Z }.
Record rating := Rating { r_movie_id : Z; r_rating : option Q }.
Record fact := Fact {
  f_movie_id : Z;
  f_rating : option Q;
  f_rating2 : option Q;
  f_title : option string;
  f_year : Z
}.
(** A row of the analysis query. *)
Record agg_row := Agg { a_title : option string; a_avg_rating : option Q; a_n : nat }.

(** ** Files and directories *)

Inductive content :=
  | Bytes (s : string)
  | Csv (df : frame).

Inductive node :=
  | File (c : content)
  | Dir (entries : gmap string node).

(** ** Column operations used by the loaders *)

(** [df[col]] *)
Fixpoint getitem (df : frame) (col : string) : exn + column :=
  match df with
  | [] => inl (KeyError col)
  | (k, c) :: df' => if String.eqb k col then inr c else getitem df' col
  end.

(** Python's [str.isspace] on the ASCII range. *)
Definition isspace (a : ascii) : bool :=
  let n := nat_of_ascii a in
  ((9 <=? n) && (n <=? 13) || (28 <=? n) && (n <=? 32))%nat.

Fixpoint lstrip (s : string) : string :=
  match s with
  | String a s' => if isspace a then lstrip s' else s
  | EmptyString => EmptyString
  end.

Fixpoint rstrip (s : string) : string :=
  match s with
  | String a s' =>
      match rstrip s' with
      | EmptyString => if isspace a then EmptyString else String a EmptyString
      | t => String a t
      end
  | EmptyString => EmptyString
  end.

Definition strip (s : string) : string := rstrip (lstrip s).

(** [col.str.strip()]: only an object column has the [.str] accessor. *)
Definition str_strip (c : column) : exn + list (option string) :=
  match c with
  | ObjCol xs => inr (fmap (M:=list) (fmap (M:=option) strip) xs)
  | _ => inl (AttributeError "Can only use .str accessor with string values!")
  end.

(** Truncation toward zero, as [float -> int64] casts do. *)
Definition Qtrunc (q : Q) : Z := Z.quot (Qnum q) (Z.pos (Qden q)).

Fixpoint all_some {A} (xs : list (option A)) : option (list A) :=
  match xs with
  | [] => Some []
  | Some x :: xs' => match all_some xs' with Some ys => Some (x :: ys) | None => None end
  | None :: _ => None
  end.

(** [col.astype(int)]: a float column is truncated and must hold no NaN; an
    object column holds a cell that is no number and is refused. *)
Definition astype_int (c : column) : exn + list Z :=
  match c with
  | IntCol xs => inr xs
  | FloatCol xs =>
      match all_some xs with
      | Some ys => inr (map Qtrunc ys)
      | None => inl (ValueError "Cannot convert non-finite values (NA or inf) to integer")
      end
  | ObjCol _ => inl (ValueError "invalid literal for int() with base 10")
  end.

(** [col.astype(float)]; an object column is refused as above. *)
Definition astype_float (c : column) : exn + list (option Q) :=
  match c with
  | IntCol xs => inr (map (fun z => Some (inject_Z z)) xs)
  | FloatCol xs => inr xs
  | ObjCol _ => inl (ValueError "could not convert string to float")
  end.

Fixpoint zip_movies (ids : list Z) (titles : list (option string)) (years : list Z)
  : list movie :=
  match ids, titles, years with
  | i :: ids', t :: titles', y :: years' => Movie i t y :: zip_movies ids' titles' years'
  | _, _, _ => []
  end.

Fixpoint zip_ratings (ids : list Z) (rs : list (option Q)) : list rating :=
  match ids, rs with
  | i :: ids', r :: rs' => Rating i r :: zip_ratings ids' rs'
  | _, _ => []
  end.

(** ** The merge *)

(** [r["rating2"] = r["rating"] ** 2] on one row. *)
Record rating_sq := RatingSq { s_movie_id : Z; s_rating : option Q; s_rating2 : option Q }.

Definition with_rating2 (r : rating) : rating_sq :=
  RatingSq (r_movie_id r) (r_rating r) (fmap (M:=option) (fun q => q ^ 2)%Q (r_rating r)).

(** [r.merge(m, on="movie_id", how="inner")]: every left row, in order, paired
    with every right row of the same key, in order; columns of the left
    frame first. *)
Definition merge_on_movie_id (r : list rating_sq) (m : list movie) : list fact :=
  flat_map (fun x =>
    map (fun y => Fact (s_movie_id x) (s_rating x) (s_rating2 x) (m_title y) (m_year y))
        (List.filter (fun y => Z.eqb (m_movie_id y) (s_movie_id x)) m)) r.

(** ** The analysis query *)

Fixpoint non_null {A} (xs : list (option A)) : list A :=
  match xs with
  | [] => []
  | Some x :: xs' => x :: non_null xs'
  | None :: xs' => non_null xs'
  end.

Definition Qsum (xs : list Q) : Q := fold_right Qplus 0%Q xs.

(** SQL [avg]: the mean of the non-null values, [NULL] when there is none. *)
Definition avg (xs : list (option Q)) : option Q :=
  match non_null xs with
  | [] => None
  | ys => Some (Qsum ys / inject_Z (Z.of_nat (length ys)))%Q
  end.

(** The nearest multiple of 1/100, in hundredths; ties away from zero. *)
Definition hundredths (q : Q) : Z :=
  let n := (Qnum q * 100)%Z in
  let d := Z.pos (Qden q) in
  (Z.sgn n * ((2 * Z.abs n + d) / (2 * d)))%Z.

(** [round(x::numeric, 2)] *)
Definition round2 (q : Q) : Q := Qred (hundredths q # 100).

Definition same_title (t : option string) (row : fact) : bool :=
  bool_decide (f_title row = t).

(** [group by title]: one group per distinct title, [NULL] being one title. *)
Definition group_by_title (rows : list fact) : list (option string * list fact) :=
  map (fun t => (t, List.filter (same_title t) rows)) (remove_dups (map f_title rows)).

Definition aggregate (g : option string * list fact) : agg_row :=
  Agg g.1 (fmap (M:=option) round2 (avg (map f_rating g.2))) (length g.2).

(** [order by avg_rating desc, n desc]; under [desc] PostgreSQL puts [NULL]
    first. *)
Definition beforeb (a b : agg_row) : bool :=
  match a_avg_rating a, a_avg_rating b with
  | None, None => (a_n b <=? a_n a)%nat
  | None, Some _ => true
  | Some _, None => false
  | Some x, Some y =>
      match (x ?= y)%Q with
      | Gt => true
      | Eq => (a_n b <=? a_n a)%nat
      | Lt => false
      end
  end.
Definition before (a b : agg_row) : Prop := Is_true (beforeb a b).
#[global] Instance before_dec : RelDecision before.
Proof. intros a b. unfold before. apply _. Defined.

(** The same order, read as a proposition: a higher mean first ([NULL]
    counting as highest), and among equal means the larger count first. *)
Definition desc_order (a b : agg_row) : Prop :=
  match a_avg_rating a, a_avg_rating b with
  | None, None => (a_n b <= a_n a)%nat
  | None, Some _ => True
  | Some _, None => False
  | Some x, Some y => (y < x)%Q \/ (x == y /\ (a_n b <= a_n a)%nat)
  end.

(** The rows [pd.read_sql(q, conn)] returns over a fact relation. *)
Definition analysis_query (rows : list fact) : list agg_row :=
  merge_sort before (map aggregate (group_by_title rows)).

(** ** The world the tasks run in *)

(** A line written by [print] (or by [traceback.print_exc]). *)
Inductive line :=
  | Movies_ingested (n : nat)
  | Ratings_ingested (n : nat)
  | Merged_records (n : nat)
  | Rowcount_OK (cnt : nat)
  | Analysis_row_count (n : nat)
  | Wrote_full_CSV (path : string)
  | Wrote_PNG (path : string)
  | Plotting_skipped (e : exn)
  | perform_analysis_failed (e : exn)
  | Traceback (e : exn)
  | Dropped_staging_tables
  | Reset_tmp_directory (path : string)
  | Deleted_tmp_file (f : string).

(** The relations of the store the DAG names; [None] when the relation does
    not exist. *)
Record Store := mkStore {
  stg_movies : option (list movie);
  stg_ratings : option (list rating);
  fact_movie_ratings : option (list fact)
}.

Record World := mkWorld {
  db : Store;
  fs : gmap string node;
  log : list line
}.

Definition set_db (f : Store -> Store) (w : World) : World :=
  mkWorld (f (db w)) (fs w) (log w).
Definition set_fs (f : gmap string node -> gmap string node) (w : World) : World :=
  mkWorld (db w) (f (fs w)) (log w).

(** How a call ends: it returns, or an exception leaves it; either way the
    effects made so far stay. *)
Inductive outcome (A : Type) :=
  | Returned (a : A) (w : World)
  | Raised (e : exn) (w : World).
Arguments Returned {A} a w.
Arguments Raised {A} e w.

Definition io (A : Type) : Type := World -> outcome A.

#[global] Instance io_ret : MRet io := fun A a w => Returned a w.
#[global] Instance io_bind : MBind io := fun A B f m w =>
  match m w with
  | Returned a w' => f a w'
  | Raised e w' => Raised e w'
  end.

Definition raise {A} (e : exn) : io A := fun w => Raised e w.
Definition lift {A} (r : exn + A) : io A :=
  match r with inl e => raise e | inr a => mret a end.
Definition print (l : line) : io unit := fun w =>
  Returned tt (mkWorld (db w) (fs w) (log w ++ [l])).
Definition modify_db (f : Store -> Store) : io unit := fun w => Returned tt (set_db f w).
Definition modify_fs (f : gmap string node -> gmap string node) : io unit := fun w =>
  Returned tt (set_fs f w).

(** [try: m  except Exception as e: h e] *)
Definition try_except {A} (m : io A) (h : exn -> io A) : io A := fun w =>
  match m w with
  | Returned a w' => Returned a w'
  | Raised e w' => h e w'
  end.

(** [if b: body] *)
Definition when (b : bool) (body : io unit) : io unit :=
  if b then body else mret tt.

(** [for x in xs: body x] *)
Fixpoint for_each {A} (xs : list A) (body : A -> io unit) : io unit :=
  match xs with
  | [] => mret tt
  | x :: xs' => body x;; for_each xs' body
  end.

Definition world_of {A} (o : outcome A) : World :=
  match o with Returned _ w => w | Raised _ w => w end.
Definition returned {A} (o : outcome A) : bool :=
  match o with Returned _ _ => true | Raised _ _ => false end.

(** *** The store.  Each statement runs in its own [engine.begin()]
    transaction, so it takes effect wholly or not at all. *)

(** [df.to_sql(name, conn, if_exists="replace", index=False)] *)
Definition to_sql_stg_movies (rows : list movie) : io unit :=
  modify_db (fun s => mkStore (Some rows) (stg_ratings s) (fact_movie_ratings s)).
Definition to_sql_stg_ratings (rows : list rating) : io unit :=
  modify_db (fun s => mkStore (stg_movies s) (Some rows) (fact_movie_ratings s)).
Definition to_sql_fact_movie_ratings (rows : list fact) : io unit :=
  modify_db (fun s => mkStore (stg_movies s) (stg_ratings s) (Some rows)).

(** [pd.read_sql("select * from ...", conn)] *)
Definition read_sql {A} (name : string) (rel : Store -> option (list A)) : io (list A) :=
  fun w =>
  match rel (db w) with
  | Some rows => Returned rows w
  | None => Raised (ProgrammingError name) w
  end.

(** [drop table if exists ...] *)
Definition drop_stg_movies : io unit :=
  modify_db (fun s => mkStore None (stg_ratings s) (fact_movie_ratings s)).
Definition drop_stg_ratings : io unit :=
  modify_db (fun s => mkStore (stg_movies s) None (fact_movie_ratings s)).

(** *** The file system *)

(** [os.path.exists(path)] *)
Definition path_exists (path : string) : io bool := fun w =>
  Returned (bool_decide (is_Some (fs w !! path))) w.

(** [os.makedirs(path, exist_ok=True)] *)
Definition makedirs (path : string) : io unit := fun w =>
  match fs w !! path with
  | None => modify_fs (insert path (Dir ∅)) w
  | Some (Dir _) => Returned tt w
  | Some (File _) => Raised (FileExistsError path) w
  end.

(** [shutil.rmtree(path, ignore_errors=True)]: a directory goes with all it
    holds; on anything else the error is ignored. *)
Definition rmtree (path : string) : io unit := fun w =>
  match fs w !! path with
  | Some (Dir _) => modify_fs (delete path) w
  | _ => Returned tt w
  end.

(** The directory at [path]. *)
Definition opendir (path : string) : io (gmap string node) := fun w =>
  match fs w !! path with
  | Some (Dir d) => Returned d w
  | Some (File _) => Raised (NotADirectoryError path) w
  | None => Raised (FileNotFoundError path) w
  end.

(** [os.listdir(path)]: the names, in the order the map enumerates them
    ([os.listdir] promises no order). *)
Definition listdir (path : string) : io (list string) :=
  d ← opendir path; mret (map fst (map_to_list d)).

Definition join (dir name : string) : string := dir ++ "/" ++ name.

(** [os.remove(os.path.join(dir, name))] *)
Definition remove (dir name : string) : io unit :=
  d ← opendir dir;
  match d !! name with
  | Some (File _) => modify_fs (insert dir (Dir (delete name d)))
  | Some (Dir _) => raise (IsADirectoryError (join dir name))
  | None => raise (FileNotFoundError (join dir name))
  end.

(** Opening [dir/name] for writing and writing [c] to it. *)
Definition write_file (dir name : string) (c : content) : io unit :=
  d ← opendir dir;
  match d !! name with
  | Some (Dir _) => raise (IsADirectoryError (join dir name))
  | _ => modify_fs (insert dir (Dir (<[name := File c]> d)))
  end.

(** [pd.read_csv(f"{dir}/{name}")] *)
Definition read_csv (dir name : string) : io frame :=
  d ← opendir dir;
  match d !! name with
  | Some (File (Csv df)) =>
      if rectangular df then mret df else raise (ParserError (join dir name))
  | Some (File (Bytes _)) => raise (ParserError (join dir name))
  | Some (Dir _) => raise (IsADirectoryError (join dir name))
  | None => raise (FileNotFoundError (join dir name))
  end.

(** ** The task callables *)

(** *** Ingestion (parallel) *)

Definition ingest_movies : io unit :=
  df ← read_csv DATA_DIR "movies.csv";
  title ← lift (getitem df "title" ≫= str_strip);
  year ← lift (getitem df "year" ≫= astype_int);
  movie_id ← lift (getitem df "movie_id" ≫= astype_int);
  to_sql_stg_movies (zip_movies movie_id title year);;
  print (Movies_ingested (frame_len df)).

Definition ingest_ratings : io unit :=
  df ← read_csv DATA_DIR "ratings.csv";
  rating ← lift (getitem df "rating" ≫= astype_float);
  movie_id ← lift (getitem df "movie_id" ≫= astype_int);
  to_sql_stg_ratings (zip_ratings movie_id rating);;
  print (Ratings_ingested (frame_len df)).

(** *** Merge & load final *)

Definition merge_transform : io unit :=
  m ← read_sql "stg_movies" stg_movies;
  r ← read_sql "stg_ratings" stg_ratings;
  let r := map with_rating2 r in
  let merged := merge_on_movie_id r m in
  to_sql_fact_movie_ratings merged;;
  print (Merged_records (length merged)).

(** *** Validate *)

(** The scalar of the row-count query over [fact_movie_ratings]. *)
Definition select_count : io nat :=
  rows ← read_sql "fact_movie_ratings" fact_movie_ratings; mret (length rows).

Definition validate_rowcount_py : io unit :=
  cnt ← select_count;
  if Nat.eqb cnt 0 then raise (ValueError "fact_movie_ratings is empty!")
  else print (Rowcount_OK cnt).

(** *** Analysis (Top 10 plot) *)

(** [sort_values("avg_rating", ascending=True)]: missing values last. *)
Definition ascendingb (a b : agg_row) : bool :=
  match a_avg_rating a, a_avg_rating b with
  | Some x, Some y => Qle_bool x y
  | _, None => true
  | None, Some _ => false
  end.
Definition ascending (a b : agg_row) : Prop := Is_true (ascendingb a b).
#[global] Instance ascending_dec : RelDecision ascending.
Proof. intros a b. unfold ascending. apply _. Defined.

(** [df.head(10).sort_values("avg_rating", ascending=True)] *)
Definition top10 (df : list agg_row) : list agg_row :=
  merge_sort ascending (take 10 df).

(** The frame [df.to_csv] writes for the rows of the analysis query. *)
Definition agg_frame (df : list agg_row) : frame :=
  [("title", ObjCol (map a_title df));
   ("avg_rating", FloatCol (map a_avg_rating df));
   ("n", IntCol (map (fun a => Z.of_nat (a_n a)) df))].

(** The rows of the analysis query over the store. *)
Definition read_sql_q : io (list agg_row) :=
  rows ← read_sql "fact_movie_ratings" fact_movie_ratings; mret (analysis_query rows).

Section Analysis.

(** The rendering backend (matplotlib with the Agg canvas): the bytes of the
    figure drawn for the given rows, or the exception raised while
    importing, drawing or encoding it. *)
Variable render : list agg_row -> exn + string.

Definition plot_top10 (df : list agg_row) : io unit :=
  png ← lift (render (top10 df));
  let out_png := "avg_ratings_top10.png" in
  write_file OUTPUT_DIR out_png (Bytes png);;
  print (Wrote_PNG (join OUTPUT_DIR out_png)).

(** The body of the outer [try]. *)
Definition analysis_try : io unit :=
  df ← read_sql_q;
  print (Analysis_row_count (length df));;
  when (bool_decide (df = []))
    (raise (ValueError "Analysis query returned 0 rows — check upstream merge."));;
  let out_csv := "avg_ratings.csv" in
  write_file OUTPUT_DIR out_csv (Csv (agg_frame df));;
  print (Wrote_full_CSV (join OUTPUT_DIR out_csv));;
  try_except (plot_top10 df) (fun e => print (Plotting_skipped e)).

(** The outer [except Exception as e], which re-raises. *)
Definition analysis_except (e : exn) : io unit :=
  print (perform_analysis_failed e);;
  print (Traceback e);;
  raise e.

Definition simple_analysis : io unit :=
  makedirs OUTPUT_DIR;;
  try_except analysis_try analysis_except.

End Analysis.

(** *** Cleanup staging tables *)

Definition cleanup_intermediate : io unit :=
  drop_stg_movies;;
  drop_stg_ratings;;
  print Dropped_staging_tables.

(** *** Cleanup files *)

Definition endswith (s suffix : string) : bool :=
  let n := String.length s in
  let k := String.length suffix in
  (k <=? n)%nat && String.eqb (substring (n - k) k s) suffix.

Definition tmp_dir : string := "/opt/airflow/tmp".

(** The body of the loop over [os.listdir(DATA_DIR)]. *)
Definition remove_if_tmp (f : string) : io unit :=
  when (endswith f ".tmp") (remove DATA_DIR f;; print (Deleted_tmp_file f)).

Definition cleanup_files : io unit :=
  ex ← path_exists tmp_dir;
  when ex
    (rmtree tmp_dir;; makedirs tmp_dir;; print (Reset_tmp_directory tmp_dir));;
  names ← listdir DATA_DIR;
  for_each names remove_if_tmp.

(** ** The DAG *)

(** The operators [t_movies], [t_ratings], [merge], [validate], [analyze],
    [cleanup_db] and [cleanup_files_task]. *)
Inductive task :=
  | t_movies | t_ratings | t_merge | t_validate | t_analyze
  | t_cleanup_db | t_cleanup_files.

#[global] Instance task_eq_dec : EqDecision task.
Proof. solve_decision. Defined.

(** [tg >> merge >> validate >> analyze >> [cleanup_db, cleanup_files_task]],
    [tg] being the group of the two loaders. *)
Definition upstream (t : task) : list task :=
  match t with
  | t_movies | t_ratings => []
  | t_merge => [t_movies; t_ratings]
  | t_validate => [t_merge]
  | t_analyze => [t_validate]
  | t_cleanup_db | t_cleanup_files => [t_analyze]
  end.

Definition all_tasks : list task :=
  [t_movies; t_ratings; t_merge; t_validate; t_analyze; t_cleanup_db; t_cleanup_files].

(** The orders in which the tasks can be taken one after the other: the two
    loaders in either order, then merge, validation and analysis, then the
    two cleanup tasks in either order. *)
Definition schedules : list (list task) :=
  [ [t_movies; t_ratings; t_merge; t_validate; t_analyze; t_cleanup_db; t_cleanup_files];
    [t_movies; t_ratings; t_merge; t_validate; t_analyze; t_cleanup_files; t_cleanup_db];
    [t_ratings; t_movies; t_merge; t_validate; t_analyze; t_cleanup_db; t_cleanup_files];
    [t_ratings; t_movies; t_merge; t_validate; t_analyze; t_cleanup_files; t_cleanup_db] ].

(** Modelled from the spec: the scheduler that runs the DAG is Airflow's and
    no part of the repository; these are the statuses of a task within a
    run. *)
Inductive status := pending | running | succeeded | failed | skipped.

#[global] Instance status_eq_dec : EqDecision status.
Proof. solve_decision. Defined.

(** Modelled from the spec: the terminal state of a run. *)
Inductive run_state := success | run_failed.

Section Run.

Variable render : list agg_row -> exn + string.

Definition python_callable (t : task) : io unit :=
  match t with
  | t_movies => ingest_movies
  | t_ratings => ingest_ratings
  | t_merge => merge_transform
  | t_validate => validate_rowcount_py
  | t_analyze => simple_analysis render
  | t_cleanup_db => cleanup_intermediate
  | t_cleanup_files => cleanup_files
  end.

(** Modelled from the spec: the retry policy of the scheduler.  The callable
    is tried again, on the world the failed try left, until it returns or
    [n] retries are spent. *)
Fixpoint attempt (n : nat) (body : io unit) (w : World) : status * World :=
  match body w with
  | Returned _ w' => (succeeded, w')
  | Raised _ w' =>
      match n with
      | O => (failed, w')
      | S n' => attempt n' body w'
      end
  end.

Definition statuses := task -> status.

Definition set_status (t : task) (s : status) (st : statuses) : statuses :=
  fun u => if decide (u = t) then s else st u.

Definition ready (st : statuses) (t : task) : bool :=
  forallb (fun u => bool_decide (st u = succeeded)) (upstream t).

(** Modelled from the spec: the dependency gating of the scheduler.  A task
    runs when every upstream task has succeeded and is skipped otherwise. *)
Definition run_task (sw : statuses * World) (t : task) : statuses * World :=
  if ready sw.1 t
  then let r := attempt retries (python_callable t) sw.2 in
       (set_status t r.1 sw.1, r.2)
  else (set_status t skipped sw.1, sw.2).

(** One run of the DAG, the tasks taken one after the other in the given
    order. *)
Definition run_in (order : list task) (w : World) : statuses * World :=
  fold_left run_task order (fun _ => pending, w).

(** One run of the DAG in the order of [all_tasks]. *)
Definition run_dag (w : World) : statuses * World := run_in all_tasks w.

End Run.

(** ** The orchestrator *)

Module Orchestrator.

(** Modelled from the spec: the scheduler is Airflow's and no part of the
    repository.  A task instance has a status and the number of times it
    was dispatched. *)
Record instance := mkInstance { state : status; tries : nat }.

(** Modelled from the spec: the state of a run, the scheduler's record of
    every task. *)
Definition run := task -> instance.

Definition set_instance (t : task) (i : instance) (r : run) : run :=
  fun u => if decide (u = t) then i else r u.

(** Modelled from the spec: what the scheduler may do to one task. *)
Inductive event :=
  | Dispatch (t : task)
  | Succeed (t : task)
  | Fail (t : task)
  | Skip (t : task).

#[global] Instance event_eq_dec : EqDecision event.
Proof. solve_decision. Defined.

Definition is_status (s : status) (r : run) (t : task) : bool :=
  bool_decide (state (r t) = s).

(** Modelled from the spec: a task may enter [running] only when all
    upstream tasks are [succeeded]; a failed attempt returns the task to
    [pending] while its retry budget lasts and makes it [failed] once the
    budget is spent; a [pending] task with an upstream task that is
    [failed] or [skipped] becomes [skipped] without execution. *)
Definition step (r : run) (e : event) : option run :=
  match e with
  | Dispatch t =>
      if is_status pending r t && forallb (is_status succeeded r) (upstream t)
      then Some (set_instance t (mkInstance running (S (tries (r t)))) r)
      else None
  | Succeed t =>
      if is_status running r t
      then Some (set_instance t (mkInstance succeeded (tries (r t))) r)
      else None
  | Fail t =>
      if is_status running r t
      then Some (set_instance t
             (mkInstance (if (tries (r t) <=? retries)%nat then pending else failed)
                       (tries (r t))) r)
      else None
  | Skip t =>
      if is_status pending r t
         && existsb (fun u => is_status failed r u || is_status skipped r u) (upstream t)
      then Some (set_instance t (mkInstance skipped (tries (r t))) r)
      else None
  end.

(** Modelled from the spec: a run is a sequence of scheduler events, in any
    interleaving the dependency gating allows. *)
Fixpoint exec (evs : list event) (r : run) : option run :=
  match evs with
  | [] => Some r
  | e :: evs' => match step r e with Some r' => exec evs' r' | None => None end
  end.

(** Modelled from the spec: a run starts with every task [pending]. *)
Definition init : run := fun _ => mkInstance pending 0.

(** Modelled from the spec: the run is over when no task is [pending] or
    [running]. *)
Definition terminal (r : run) : bool :=
  forallb (fun t => negb (is_status pending r t || is_status running r t)) all_tasks.

(** Modelled from the spec: the run is [failed] when a task ended
    [failed], and a [success] otherwise. *)
Definition run_status (r : run) : run_state :=
  if existsb (is_status failed r) all_tasks then run_failed else success.

(** The tasks downstream of the two loaders. *)
Definition downstream_of_loaders : list task :=
  [t_merge; t_validate; t_analyze; t_cleanup_db; t_cleanup_files].

(** A task that ran was dispatched. *)
Definition ran_means_dispatched (r : run) : Prop :=
  forall t, state (r t) = running \/ state (r t) = succeeded \/ state (r t) = failed ->
    (0 < tries (r t))%nat.

(** A task was dispatched only after all its upstream tasks had succeeded. *)
Definition dispatched_after_upstream (r : run) : Prop :=
  forall t u, (0 < tries (r t))%nat -> u ∈ upstream t -> state (r u) = succeeded.

(** A task is [failed] only with its retry budget spent. *)
Definition budget_respected (r : run) : Prop :=
  forall t, (state (r t) = pending -> tries (r t) <= retries)%nat
    /\ (tries (r t) <= S retries)%nat
    /\ (state (r t) = failed -> tries (r t) = S retries).

Definition invariant (r : run) : Prop :=
  ran_means_dispatched r /\ dispatched_after_upstream r /\ budget_respected r.

Definition target (e : event) : task :=
  match e with Dispatch t | Succeed t | Fail t | Skip t => t end.

(** A run in which the ratings loader fails twice. *)
Definition ratings_fail_trace : list event :=
  [Dispatch t_movies; Dispatch t_ratings; Succeed t_movies; Fail t_ratings;
   Dispatch t_ratings; Fail t_ratings; Skip t_merge; Skip t_validate;
   Skip t_analyze; Skip t_cleanup_files; Skip t_cleanup_db].

Definition ratings_fail_run : run :=
  match exec ratings_fail_trace init with Some r => r | None => init end.

(** The events of a run that ends with the given statuses, the tasks taken
    in the order of [all_tasks]. *)
Definition trace_of (st : statuses) : list event :=
  flat_map (fun t =>
    match st t with
    | succeeded => [Dispatch t; Succeed t]
    | failed => [Dispatch t; Fail t; Dispatch t; Fail t]
    | skipped => [Skip t]
    | _ => []
    end) all_tasks.

Definition run_of (evs : list event) : run :=
  match exec evs init with Some r => r | None => init end.

(** A task that will not change any more. *)
Definition final (r : run) (t : task) : Prop :=
  state (r t) = succeeded \/ state (r t) = failed \/ state (r t) = skipped.

(** Every task of [ts] has its upstream tasks among [settled] and the tasks
    before it. *)
Fixpoint ordered (settled ts : list task) : bool :=
  match ts with
  | [] => true
  | t :: ts' =>
      forallb (fun u => bool_decide (u ∈ settled)) (upstream t)
      && ordered (t :: settled) ts'
  end.

(** The events a task instance can still take part in. *)
Definition weight (i : instance) : nat :=
  match state i with
  | pending => 2 * (S retries - tries i) + 1
  | running => 2 * (S retries - tries i) + 2
  | _ => 0
  end.

Definition potential (r : run) : nat :=
  list_sum (map (fun t => weight (r t)) all_tasks).

End Orchestrator.

(** * Notions used in the statements *)

(** ** File-system cleanup *)

(** [d'] is [d] without some of its files whose names end in ".tmp". *)
Definition only_tmp_removed (d d' : gmap string node) : Prop :=
  forall f, d' !! f = d !! f
    \/ (d' !! f = None /\ endswith f ".tmp" = true /\ exists c, d !! f = Some (File c)).

(** The world after the first statement of [cleanup_files], when it does not
    raise: an existing scratch directory has been emptied. *)
Definition after_reset (w : World) : World :=
  match fs w !! tmp_dir with
  | Some (Dir _) =>
      mkWorld (db w) (<[tmp_dir := Dir ∅]> (delete tmp_dir (fs w)))
              (log w ++ [Reset_tmp_directory tmp_dir])
  | _ => w
  end.

Definition is_file (n : node) : bool :=
  match n with File _ => true | Dir _ => false end.

(** [w'] has the data directory of [w], but for ".tmp" files removed. *)
Definition keeps_sources (w w' : World) : Prop :=
  match fs w !! DATA_DIR with
  | Some (Dir d) => exists d', fs w' !! DATA_DIR = Some (Dir d') /\ only_tmp_removed d d'
  | o => fs w' !! DATA_DIR = o
  end.

(** ** The analysis task *)

(** The entries of the output directory; none when it does not exist. *)
Definition out_entries (w : World) : gmap string node :=
  match fs w !! OUTPUT_DIR with Some (Dir d) => d | _ => ∅ end.

(** The primary artifact can be written: the output path is absent or a
    directory, and [avg_ratings.csv] in it is not a directory. *)
Definition primary_writable (w : World) : bool :=
  match fs w !! OUTPUT_DIR with
  | Some (File _) => false
  | _ => match out_entries w !! "avg_ratings.csv" with Some (Dir _) => false | _ => true end
  end.

(** [w] after the given lines were printed, one by one. *)
Definition logged (ls : list line) (w : World) : World :=
  mkWorld (db w) (fs w) (fold_left (fun acc l => (acc ++ [l])%list) ls (log w)).

(** The world [os.makedirs(OUTPUT_DIR, exist_ok=True)] leaves when it returns. *)
Definition made_output (w : World) : World :=
  match fs w !! OUTPUT_DIR with
  | None => set_fs (insert OUTPUT_DIR (Dir ∅)) w
  | _ => w
  end.

(** The world in which the plot is attempted: the full CSV is written. *)
Definition csv_written (v : World) (d : gmap string node) (df : list agg_row) : World :=
  mkWorld (db v)
    (<[OUTPUT_DIR := Dir (<["avg_ratings.csv" := File (Csv (agg_frame df))]> d)]> (fs v))
    ((log v ++ [Analysis_row_count (length df)])
       ++ [Wrote_full_CSV (join OUTPUT_DIR "avg_ratings.csv")]).

(** The world after the plot was saved. *)
Definition png_written (v1 : World) (d1 : gmap string node) (png : string) : World :=
  mkWorld (db v1)
    (<[OUTPUT_DIR := Dir (<["avg_ratings_top10.png" := File (Bytes png)]> d1)]> (fs v1))
    (log v1 ++ [Wrote_PNG (join OUTPUT_DIR "avg_ratings_top10.png")]).

(** ** The loaders as functions of the sources *)

(** The rows [ingest_movies] writes for a frame, or the exception it raises. *)
Definition movies_of_frame (df : frame) : exn + list movie :=
  title ← getitem df "title" ≫= str_strip;
  year ← getitem df "year" ≫= astype_int;
  movie_id ← getitem df "movie_id" ≫= astype_int;
  inr (zip_movies movie_id title year).

Definition ratings_of_frame (df : frame) : exn + list rating :=
  rating ← getitem df "rating" ≫= astype_float;
  movie_id ← getitem df "movie_id" ≫= astype_int;
  inr (zip_ratings movie_id rating).

(** What [pd.read_csv] gives for a source file, as a value. *)
Definition source (name : string) (w : World) : exn + frame :=
  match read_csv DATA_DIR name w with
  | Returned df _ => inr df
  | Raised e _ => inl e
  end.

Definition with_stg_movies (rows : list movie) (n : nat) (w : World) : World :=
  mkWorld (mkStore (Some rows) (stg_ratings (db w)) (fact_movie_ratings (db w)))
          (fs w) (log w ++ [Movies_ingested n]).

Definition with_stg_ratings (rows : list rating) (n : nat) (w : World) : World :=
  mkWorld (mkStore (stg_movies (db w)) (Some rows) (fact_movie_ratings (db w)))
          (fs w) (log w ++ [Ratings_ingested n]).

(** The rows a loader would write, as a function of the world. *)
Definition loaded_movies (w : World) : option (list movie * nat) :=
  match source "movies.csv" w with
  | inr df => match movies_of_frame df with inr rows => Some (rows, frame_len df) | _ => None end
  | _ => None
  end.

Definition loaded_ratings (w : World) : option (list rating * nat) :=
  match source "ratings.csv" w with
  | inr df => match ratings_of_frame df with inr rows => Some (rows, frame_len df) | _ => None end
  | _ => None
  end.

(** The tasks after the merge leave the fact relation alone. *)
Definition after_merge_tasks : list task :=
  [t_validate; t_analyze; t_cleanup_db; t_cleanup_files].

Definition same_fact (w w' : World) : Prop :=
  fact_movie_ratings (db w') = fact_movie_ratings (db w).

(** ** Example worlds *)

Definition empty_store : Store := mkStore None None None.

Definition movies_csv : frame :=
  [("movie_id", IntCol [1%Z]); ("title", ObjCol [Some " A "]); ("year", IntCol [2000%Z])].
Definition ratings_csv : frame :=
  [("movie_id", IntCol [1%Z; 1%Z]); ("rating", FloatCol [Some 4%Q; Some 2%Q])].

(** A data directory with the two sources and a leftover temporary file. *)
Definition example_data : gmap string node :=
  <["movies.csv" := File (Csv movies_csv)]>
    (<["ratings.csv" := File (Csv ratings_csv)]>
       (<["junk.tmp" := File (Bytes "x")]> ∅)).

(** A world with the data directory and a scratch directory holding a file;
    its store is empty. *)
Definition example_world : World :=
  mkWorld empty_store
    (<[DATA_DIR := Dir example_data]>
       (<[tmp_dir := Dir (<["part-0" := File (Bytes "y")]> ∅)]> ∅)) [].

(** A world with an empty data directory and no scratch directory. *)
Definition no_scratch_world : World :=
  mkWorld empty_store (<[DATA_DIR := Dir ∅]> ∅) [].

(** A world whose staging relations hold the rows of the example of the
    specification. *)
Definition c1_world : World :=
  mkWorld (mkStore (Some [Movie 1 (Some "A") 2000])
                   (Some [Rating 1 (Some 4%Q); Rating 1 (Some 2%Q)]) None) ∅ [].

Definition example_facts : list fact :=
  [Fact 1 (Some 4%Q) (Some 16%Q) (Some "A") 2000;
   Fact 1 (Some 2%Q) (Some 4%Q) (Some "A") 2000].

(** A world whose store holds the fact relation only and that has no output
    directory. *)
Definition fact_world : World :=
  mkWorld (mkStore None None (Some example_facts)) (<[DATA_DIR := Dir example_data]> ∅) [].

(** A backend that cannot draw. *)
Definition no_display (df : list agg_row) : exn + string :=
  inl (RuntimeError "no display").

(** The schedule with the loaders and the cleanup tasks in the other order. *)
Definition swapped_schedule : list task :=
  [t_ratings; t_movies; t_merge; t_validate; t_analyze; t_cleanup_files; t_cleanup_db].

(** ** Notions for the further properties *)

(** The string begins, or ends, with white space. *)
Definition starts_with_space (s : string) : bool :=
  match s with String a _ => isspace a | EmptyString => false end.

Fixpoint ends_with_space (s : string) : bool :=
  match s with
  | EmptyString => false
  | String a EmptyString => isspace a
  | String _ s' => ends_with_space s'
  end.

(** The string holds white space only. *)
Fixpoint blank (s : string) : bool :=
  match s with
  | EmptyString => true
  | String a s' => isspace a && blank s'
  end.

(** The example of the specification with the ratings in the other order. *)
Definition c1_world_swapped : World :=
  mkWorld (mkStore (Some [Movie 1 (Some "A") 2000])
                   (Some [Rating 1 (Some 2%Q); Rating 1 (Some 4%Q)]) None) ∅ [].

(** The rating row has a movie row of its movie_id. *)
Definition has_movie (m : list movie) (x : rating) : bool :=
  bool_decide (r_movie_id x ∈ map m_movie_id m).

(** [ascending], read as a proposition: a lower mean first, a missing mean
    last. *)
Definition asc_order (a b : agg_row) : Prop :=
  match a_avg_rating a, a_avg_rating b with
  | Some x, Some y => (x <= y)%Q
  | _, None => True
  | None, Some _ => False
  end.



(** * Properties *)

(** ** Running the monad *)

Lemma bind_returned {A B} (m : io A) (k : A -> io B) w a w' :
  m w = Returned a w' -> (m ≫= k) w = k a w'.
Proof. intros H. unfold mbind, io_bind. by rewrite H. Qed.

Lemma bind_raised {A B} (m : io A) (k : A -> io B) w e w' :
  m w = Raised e w' -> (m ≫= k) w = Raised e w'.
Proof. intros H. unfold mbind, io_bind. by rewrite H. Qed.

Lemma read_sql_some {A} name (rel : Store -> option (list A)) w rows :
  rel (db w) = Some rows -> read_sql name rel w = Returned rows w.
Proof. intros H. unfold read_sql. by rewrite H. Qed.

Lemma read_sql_none {A} name (rel : Store -> option (list A)) w :
  rel (db w) = None -> read_sql name rel w = Raised (ProgrammingError name) w.
Proof. intros H. unfold read_sql. by rewrite H. Qed.

(** Unfolds the sequencing of a task body down to the primitive steps. *)
Ltac io_unfold :=
  unfold mbind, io_bind, mret, io_ret, raise, print, modify_db, modify_fs,
    when, lift, try_except, set_db, set_fs in *.

(** ** The merge on the example of the specification *)

(** C1: with stg_movies = {(1,"A",2000)} and stg_ratings = {(1,4.0),(1,2.0)},
    merge_transform returns and leaves exactly two fact rows, with rating2
    16.0 and 4.0 in that order, both joined to title "A"; the analysis query
    over that fact relation returns exactly one group, ("A", 3.0, 2). *)
Theorem C1_merge_example (w : World) :
  stg_movies (db w) = Some [Movie 1 (Some "A") 2000] ->
  stg_ratings (db w) = Some [Rating 1 (Some 4%Q); Rating 1 (Some 2%Q)] ->
  exists w',
    merge_transform w = Returned tt w'
    /\ fact_movie_ratings (db w') =
         Some [Fact 1 (Some 4%Q) (Some 16%Q) (Some "A") 2000;
               Fact 1 (Some 2%Q) (Some 4%Q) (Some "A") 2000]
    /\ read_sql_q w' = Returned [Agg (Some "A") (Some 3%Q) 2] w'.
Proof.
  intros Hm Hr. eexists. split; [|split].
  - unfold merge_transform.
    rewrite (bind_returned _ _ _ _ _ (read_sql_some _ _ _ _ Hm)).
    rewrite (bind_returned _ _ _ _ _ (read_sql_some _ _ _ _ Hr)).
    reflexivity.
  - reflexivity.
  - reflexivity.
Qed.

Lemma C1_merge_example_witness :
  exists w',
    merge_transform c1_world = Returned tt w'
    /\ fact_movie_ratings (db w') =
         Some [Fact 1 (Some 4%Q) (Some 16%Q) (Some "A") 2000;
               Fact 1 (Some 2%Q) (Some 4%Q) (Some "A") 2000]
    /\ read_sql_q w' = Returned [Agg (Some "A") (Some 3%Q) 2] w'.
Proof. apply (C1_merge_example c1_world); reflexivity. Defined.

(** ** Validation *)

Lemma select_count_some w rows :
  fact_movie_ratings (db w) = Some rows -> select_count w = Returned (length rows) w.
Proof.
  intros H. unfold select_count.
  by rewrite (bind_returned _ _ _ _ _ (read_sql_some _ _ _ _ H)).
Qed.

(** Whatever the store holds, validation writes to neither the store nor the
    file system. *)
Lemma validate_read_only w :
  db (world_of (validate_rowcount_py w)) = db w
  /\ fs (world_of (validate_rowcount_py w)) = fs w.
Proof.
  unfold validate_rowcount_py, select_count, read_sql. io_unfold.
  destruct (fact_movie_ratings (db w)) as [rows|]; [|done].
  by destruct (Nat.eqb (length rows) 0).
Qed.

(** C4: over an existing fact relation validate_rowcount_py looks at the row
    count only; it raises ValueError("fact_movie_ratings is empty!") exactly
    when the count is zero and returns otherwise, having printed the count;
    either way the store and the file system are as before. *)
Theorem C4_validate_rowcount (w : World) (rows : list fact) :
  fact_movie_ratings (db w) = Some rows ->
  validate_rowcount_py w =
    (if Nat.eqb (length rows) 0
     then Raised (ValueError "fact_movie_ratings is empty!") w
     else Returned tt (mkWorld (db w) (fs w) (log w ++ [Rowcount_OK (length rows)])))
  /\ (returned (validate_rowcount_py w) = false <-> length rows = 0%nat)
  /\ (returned (validate_rowcount_py w) = true <-> (0 < length rows)%nat)
  /\ db (world_of (validate_rowcount_py w)) = db w
  /\ fs (world_of (validate_rowcount_py w)) = fs w.
Proof.
  intros H.
  assert (E : validate_rowcount_py w =
    (if Nat.eqb (length rows) 0
     then Raised (ValueError "fact_movie_ratings is empty!") w
     else Returned tt (mkWorld (db w) (fs w) (log w ++ [Rowcount_OK (length rows)])))).
  { unfold validate_rowcount_py.
    rewrite (bind_returned _ _ _ _ _ (select_count_some _ _ H)).
    by destruct (Nat.eqb (length rows) 0). }
  split; [exact E|]. rewrite E.
  destruct rows as [|r rows]; simpl; repeat split; try done; try lia.
Qed.

(** ** Storage cleanup *)

(** C8: cleanup_intermediate always returns; afterwards neither staging
    relation exists, whether or not it existed before, and the fact relation
    and the file system are as before; a relation that was already missing is
    still missing, and a second call leaves the store and the file system as
    the first one left them. *)
Theorem C8_cleanup_intermediate (w : World) :
  cleanup_intermediate w =
    Returned tt (mkWorld (mkStore None None (fact_movie_ratings (db w))) (fs w)
                         (log w ++ [Dropped_staging_tables]))
  /\ (stg_movies (db w) = None ->
      stg_movies (db (world_of (cleanup_intermediate w))) = stg_movies (db w))
  /\ (stg_ratings (db w) = None ->
      stg_ratings (db (world_of (cleanup_intermediate w))) = stg_ratings (db w))
  /\ (stg_movies (db w) = None -> stg_ratings (db w) = None ->
      db (world_of (cleanup_intermediate w)) = db w)
  /\ db (world_of (cleanup_intermediate (world_of (cleanup_intermediate w))))
     = db (world_of (cleanup_intermediate w))
  /\ fs (world_of (cleanup_intermediate (world_of (cleanup_intermediate w))))
     = fs (world_of (cleanup_intermediate w)).
Proof.
  assert (E : forall v, cleanup_intermediate v =
    Returned tt (mkWorld (mkStore None None (fact_movie_ratings (db v))) (fs v)
                         (log v ++ [Dropped_staging_tables]))) by done.
  split; [apply E|]. rewrite !E. simpl.
  repeat split; try congruence.
  intros Hm Hr. destruct (db w); simpl in *. congruence.
Qed.

(** ** File-system cleanup *)

Lemma for_each_cons {A} (x : A) xs body w :
  for_each (x :: xs) body w =
    match body x w with
    | Returned _ w' => for_each xs body w'
    | Raised e w' => Raised e w'
    end.
Proof. reflexivity. Qed.

Lemma opendir_dir path w d :
  fs w !! path = Some (Dir d) -> opendir path w = Returned d w.
Proof. intros H. unfold opendir. by rewrite H. Qed.

(** What one pass of the loop body does, case by case. *)
Lemma remove_if_tmp_cases f w d :
  fs w !! DATA_DIR = Some (Dir d) ->
  remove_if_tmp f w =
    if endswith f ".tmp" then
      match d !! f with
      | Some (File _) =>
          Returned tt (mkWorld (db w) (<[DATA_DIR := Dir (delete f d)]> (fs w))
                               (log w ++ [Deleted_tmp_file f]))
      | Some (Dir _) => Raised (IsADirectoryError (join DATA_DIR f)) w
      | None => Raised (FileNotFoundError (join DATA_DIR f)) w
      end
    else Returned tt w.
Proof.
  intros H. unfold remove_if_tmp, when.
  destruct (endswith f ".tmp"); [|done].
  unfold remove, mbind, io_bind. rewrite (opendir_dir _ _ _ H).
  destruct (d !! f) as [[c|e]|]; reflexivity.
Qed.

Lemma bool_decide_elem_of_cons_ne (f x : string) names :
  f <> x -> bool_decide (f ∈ x :: names) = bool_decide (f ∈ names).
Proof.
  intros Hne. apply bool_decide_ext. rewrite elem_of_cons.
  split; [intros [?|?]; [congruence|done]|by right].
Qed.

Lemma only_tmp_removed_refl d : only_tmp_removed d d.
Proof. intros f. by left. Qed.

Lemma only_tmp_removed_trans d1 d2 d3 :
  only_tmp_removed d1 d2 -> only_tmp_removed d2 d3 -> only_tmp_removed d1 d3.
Proof.
  intros H12 H23 f. destruct (H23 f) as [E|(E & T & c & Hc)].
  - rewrite E. apply H12.
  - destruct (H12 f) as [E'|(E' & _ & _)].
    + right. rewrite <- E'. eauto.
    + congruence.
Qed.

Lemma only_tmp_removed_delete d f c :
  endswith f ".tmp" = true -> d !! f = Some (File c) -> only_tmp_removed d (delete f d).
Proof.
  intros T Hc g. destruct (decide (g = f)) as [->|Hne].
  - right. rewrite lookup_delete_eq. eauto.
  - left. by rewrite lookup_delete_ne.
Qed.

(** The loop only ever touches the data directory, and there only removes
    ".tmp" files, whether it runs to its end or is left by an exception. *)
Lemma cleanup_loop_frame names : forall w d,
  fs w !! DATA_DIR = Some (Dir d) ->
  db (world_of (for_each names remove_if_tmp w)) = db w
  /\ (forall p, p <> DATA_DIR ->
        fs (world_of (for_each names remove_if_tmp w)) !! p = fs w !! p)
  /\ exists d', fs (world_of (for_each names remove_if_tmp w)) !! DATA_DIR = Some (Dir d')
       /\ only_tmp_removed d d'.
Proof.
  induction names as [|x names IH]; intros w d Hd.
  - simpl. repeat split; try done. exists d. split; [done|apply only_tmp_removed_refl].
  - rewrite for_each_cons, (remove_if_tmp_cases _ _ _ Hd).
    destruct (endswith x ".tmp") eqn:T.
    + destruct (d !! x) as [[c|e]|] eqn:E.
      * match goal with |- context [for_each names remove_if_tmp ?v] => set (w1 := v) end.
        assert (H1 : fs w1 !! DATA_DIR = Some (Dir (delete x d)))
          by (subst w1; simpl; apply lookup_insert_eq).
        destruct (IH w1 _ H1) as (Hdb & Hfs & d' & Hd' & Hrel).
        split; [by rewrite Hdb|]. split.
        -- intros p Hp. rewrite (Hfs p Hp). subst w1. simpl.
           by rewrite lookup_insert_ne.
        -- exists d'. split; [done|].
           eapply only_tmp_removed_trans; [|exact Hrel].
           by eapply only_tmp_removed_delete.
      * simpl. repeat split; try done. exists d. split; [done|apply only_tmp_removed_refl].
      * simpl. repeat split; try done. exists d. split; [done|apply only_tmp_removed_refl].
    + apply (IH w d Hd).
Qed.

(** When every ".tmp" name listed is a regular file, the loop runs to its
    end and exactly those entries are gone. *)
Lemma cleanup_loop_success names : NoDup names -> forall w d,
  fs w !! DATA_DIR = Some (Dir d) ->
  (forall f, f ∈ names -> endswith f ".tmp" = true -> exists c, d !! f = Some (File c)) ->
  exists w' d', for_each names remove_if_tmp w = Returned tt w'
    /\ fs w' !! DATA_DIR = Some (Dir d')
    /\ forall f, d' !! f = if bool_decide (f ∈ names) && endswith f ".tmp" then None else d !! f.
Proof.
  induction 1 as [|x names Hx ND IH]; intros w d Hd Hfiles.
  - exists w, d. repeat split; try done.
  - rewrite for_each_cons, (remove_if_tmp_cases _ _ _ Hd).
    destruct (endswith x ".tmp") eqn:T.
    + destruct (Hfiles x) as [c Hc]; [by left|done|]. rewrite Hc.
      match goal with |- context [for_each names remove_if_tmp ?v] => set (w1 := v) end.
      assert (H1 : fs w1 !! DATA_DIR = Some (Dir (delete x d)))
        by (subst w1; simpl; apply lookup_insert_eq).
      destruct (IH w1 _ H1) as (w' & d' & Hrun & Hd' & Hlook).
      { intros f Hf Tf. destruct (Hfiles f) as [c' Hc']; [by right|done|].
        exists c'. rewrite lookup_delete_ne; [done|]. intros ->. done. }
      exists w', d'. repeat split; try done. intros f. rewrite Hlook.
      destruct (decide (f = x)) as [->|Hne].
      * rewrite (bool_decide_eq_false_2 (x ∈ names)) by done.
        rewrite (bool_decide_eq_true_2 (x ∈ x :: names)) by (by left).
        simpl. rewrite T. apply lookup_delete_eq.
      * rewrite lookup_delete_ne by done.
        by rewrite bool_decide_elem_of_cons_ne.
    + destruct (IH w d Hd) as (w' & d' & Hrun & Hd' & Hlook).
      { intros f Hf Tf. apply Hfiles; [by right|done]. }
      exists w', d'. repeat split; try done. intros f. rewrite Hlook.
      destruct (decide (f = x)) as [->|Hne].
      * rewrite T. by rewrite !andb_false_r.
      * by rewrite bool_decide_elem_of_cons_ne.
Qed.

Lemma cleanup_files_unfold w :
  cleanup_files w =
    match fs w !! tmp_dir with
    | Some (File _) => Raised (FileExistsError tmp_dir) w
    | _ =>
        match fs (after_reset w) !! DATA_DIR with
        | Some (Dir d) => for_each (map fst (map_to_list d)) remove_if_tmp (after_reset w)
        | Some (File _) => Raised (NotADirectoryError DATA_DIR) (after_reset w)
        | None => Raised (FileNotFoundError DATA_DIR) (after_reset w)
        end
    end.
Proof.
  unfold cleanup_files, after_reset, path_exists, listdir, opendir, rmtree, makedirs.
  io_unfold. simpl.
  destruct (fs w !! tmp_dir) as [[c|t]|] eqn:E; simpl.
  - rewrite E. simpl. by rewrite E.
  - rewrite E. simpl. rewrite lookup_delete_eq. simpl.
    by destruct (_ !! DATA_DIR) as [[?|?]|].
  - by destruct (_ !! DATA_DIR) as [[?|?]|].
Qed.

Lemma after_reset_data w : fs (after_reset w) !! DATA_DIR = fs w !! DATA_DIR.
Proof.
  unfold after_reset. destruct (fs w !! tmp_dir) as [[c|t]|]; try done.
  simpl. rewrite lookup_insert_ne by done. by rewrite lookup_delete_ne.
Qed.

Lemma after_reset_db w : db (after_reset w) = db w.
Proof. unfold after_reset. by destruct (fs w !! tmp_dir) as [[c|t]|]. Qed.

Lemma after_reset_other w p :
  p <> tmp_dir -> fs (after_reset w) !! p = fs w !! p.
Proof.
  intros Hp. unfold after_reset. destruct (fs w !! tmp_dir) as [[c|t]|]; try done.
  simpl. rewrite lookup_insert_ne by done. by rewrite lookup_delete_ne.
Qed.

Lemma after_reset_tmp w :
  fs (after_reset w) !! tmp_dir =
    match fs w !! tmp_dir with
    | Some (Dir _) => Some (Dir ∅)
    | o => o
    end.
Proof.
  unfold after_reset. destruct (fs w !! tmp_dir) as [[c|t]|] eqn:E; try done.
  simpl. apply lookup_insert_eq.
Qed.

Lemma elem_of_listing (d : gmap string node) f :
  f ∈ map fst (map_to_list d) <-> is_Some (d !! f).
Proof.
  change (map fst (map_to_list d)) with ((map_to_list d).*1).
  rewrite list_elem_of_fmap. split.
  - intros ([g n] & -> & H). apply elem_of_map_to_list in H. eauto.
  - intros [n H]. exists (f, n). split; [done|]. by apply elem_of_map_to_list.
Qed.

(** C7 (amended): when the data directory exists, none of its ".tmp"
    entries is a directory and the scratch path is not a regular file,
    cleanup_files returns; a scratch directory that existed is then empty,
    one that was absent is still absent, and the data directory is what it
    was without the entries whose names end in ".tmp". *)
Theorem C7_cleanup_files_amended (w : World) (d : gmap string node) :
  fs w !! DATA_DIR = Some (Dir d) ->
  map_Forall (fun f n => endswith f ".tmp" = true -> is_file n = true) d ->
  (forall c, fs w !! tmp_dir <> Some (File c)) ->
  exists w',
    cleanup_files w = Returned tt w'
    /\ fs w' !! tmp_dir =
         match fs w !! tmp_dir with Some _ => Some (Dir ∅) | None => None end
    /\ fs w' !! DATA_DIR =
         Some (Dir (filter (fun kv => endswith kv.1 ".tmp" = false) d))
    /\ db w' = db w.
Proof.
  intros Hd Hfiles Htmp.
  assert (Hd1 : fs (after_reset w) !! DATA_DIR = Some (Dir d))
    by (by rewrite after_reset_data).
  destruct (cleanup_loop_success (map fst (map_to_list d))
              (NoDup_fst_map_to_list d) (after_reset w) d Hd1)
    as (w' & d' & Hrun & Hd' & Hlook).
  { intros f Hf T. apply elem_of_listing in Hf as [n Hn].
    specialize (Hfiles f n Hn T). destruct n; [eauto|done]. }
  destruct (cleanup_loop_frame (map fst (map_to_list d)) (after_reset w) d Hd1)
    as (Hdb & Hfs & _).
  rewrite Hrun in Hdb, Hfs. simpl in Hdb, Hfs.
  exists w'. split; [|split; [|split]].
  - rewrite cleanup_files_unfold, Hd1.
    destruct (fs w !! tmp_dir) as [[c|t]|] eqn:E; [by destruct (Htmp c)|done|done].
  - rewrite Hfs by done. rewrite after_reset_tmp.
    destruct (fs w !! tmp_dir) as [[c|t]|] eqn:E; [by destruct (Htmp c)|done|done].
  - rewrite Hd'. do 2 f_equal. apply map_eq. intros f. rewrite Hlook.
    destruct (endswith f ".tmp") eqn:T.
    + destruct (bool_decide (f ∈ map fst (map_to_list d))) eqn:B; simpl.
      * symmetry. apply map_lookup_filter_None. right. intros n _. simpl. congruence.
      * apply bool_decide_eq_false in B. rewrite elem_of_listing in B.
        assert (E : d !! f = None) by (destruct (d !! f); [by destruct B; eauto|done]).
        rewrite E. symmetry. apply map_lookup_filter_None. by left.
    + rewrite andb_false_r. destruct (d !! f) as [n|] eqn:E.
      * symmetry. apply map_lookup_filter_Some. by split.
      * symmetry. apply map_lookup_filter_None. by left.
  - by rewrite Hdb, after_reset_db.
Qed.

Lemma only_tmp_removed_keeps d d' f :
  only_tmp_removed d d' -> endswith f ".tmp" = false -> d' !! f = d !! f.
Proof. intros H T. destruct (H f) as [E|(_ & T' & _)]; [done|congruence]. Qed.

(** Whatever [cleanup_files] does, and however it ends, the data directory
    only loses files whose names end in ".tmp". *)
Lemma cleanup_files_data w d :
  fs w !! DATA_DIR = Some (Dir d) ->
  exists d', fs (world_of (cleanup_files w)) !! DATA_DIR = Some (Dir d')
    /\ only_tmp_removed d d'.
Proof.
  intros Hd. rewrite cleanup_files_unfold.
  assert (Hd1 : fs (after_reset w) !! DATA_DIR = Some (Dir d))
    by (by rewrite after_reset_data).
  destruct (fs w !! tmp_dir) as [[c|t]|] eqn:E.
  - exists d. split; [done|apply only_tmp_removed_refl].
  - rewrite Hd1. by apply cleanup_loop_frame.
  - rewrite Hd1. by apply cleanup_loop_frame.
Qed.

(** C10: in the data directory cleanup_files removes only regular files
    whose names end in ".tmp": every entry under another name, movies.csv and
    ratings.csv among them, is after the task what it was before, whether the
    task returns or raises. *)
Theorem C10_cleanup_files_frame (w : World) (d : gmap string node) (f : string) :
  fs w !! DATA_DIR = Some (Dir d) ->
  endswith f ".tmp" = false ->
  exists d',
    fs (world_of (cleanup_files w)) !! DATA_DIR = Some (Dir d')
    /\ d' !! f = d !! f
    /\ d' !! "movies.csv" = d !! "movies.csv"
    /\ d' !! "ratings.csv" = d !! "ratings.csv"
    /\ forall g, d' !! g = d !! g
         \/ (d' !! g = None /\ endswith g ".tmp" = true /\ exists c, d !! g = Some (File c)).
Proof.
  intros Hd T. destruct (cleanup_files_data w d Hd) as (d' & Hd' & Hrel).
  exists d'. split; [done|].
  split; [by apply (only_tmp_removed_keeps d)|].
  split; [by apply (only_tmp_removed_keeps d)|].
  split; [by apply (only_tmp_removed_keeps d)|].
  exact Hrel.
Qed.

(** *** On the example worlds *)

Lemma C7_cleanup_files_amended_witness :
  exists w',
    cleanup_files example_world = Returned tt w'
    /\ fs w' !! tmp_dir =
         match fs example_world !! tmp_dir with Some _ => Some (Dir ∅) | None => None end
    /\ fs w' !! DATA_DIR =
         Some (Dir (filter (fun kv => endswith kv.1 ".tmp" = false) example_data))
    /\ db w' = db example_world.
Proof.
  apply (C7_cleanup_files_amended example_world example_data).
  - reflexivity.
  - compute_done.
  - intros c. vm_compute. discriminate.
Defined.

(** C7 (as stated) fails: with no scratch directory before the task,
    cleanup_files returns and there is still no scratch directory. *)
Lemma C7_scratch_not_recreated :
  fs no_scratch_world !! tmp_dir = None
  /\ cleanup_files no_scratch_world = Returned tt no_scratch_world
  /\ fs (world_of (cleanup_files no_scratch_world)) !! tmp_dir = None.
Proof. vm_compute. repeat split. Qed.

Lemma C10_cleanup_files_frame_witness :
  exists d',
    fs (world_of (cleanup_files example_world)) !! DATA_DIR = Some (Dir d')
    /\ d' !! "movies.csv" = example_data !! "movies.csv"
    /\ d' !! "movies.csv" = example_data !! "movies.csv"
    /\ d' !! "ratings.csv" = example_data !! "ratings.csv"
    /\ forall g, d' !! g = example_data !! g
         \/ (d' !! g = None /\ endswith g ".tmp" = true
             /\ exists c, example_data !! g = Some (File c)).
Proof.
  apply (C10_cleanup_files_frame example_world example_data "movies.csv"); reflexivity.
Defined.

(** ** The analysis query *)

Lemma before_spec a b : before a b <-> desc_order a b.
Proof.
  unfold before, beforeb, desc_order.
  destruct (a_avg_rating a) as [x|], (a_avg_rating b) as [y|]; simpl; try tauto.
  - destruct (Qcompare_spec x y) as [E|L|G].
    + rewrite Is_true_true, Nat.leb_le. split; [by right|intros [H|[_ H]]; [|done]].
      rewrite E in H. by apply Qlt_irrefl in H.
    + split; [done|intros [H|[E _]]].
      * apply (Qlt_irrefl x). by apply Qlt_trans with y.
      * rewrite E in L. by apply Qlt_irrefl in L.
    + split; [by left|done].
  - by rewrite Is_true_true, Nat.leb_le.
Qed.

#[global] Instance desc_order_total : Total before.
Proof.
  intros a b. rewrite !before_spec. unfold desc_order.
  destruct (a_avg_rating a) as [x|], (a_avg_rating b) as [y|]; try tauto; [|lia].
  destruct (Q_dec x y) as [[L|G]|E]; [by right; left|by left; left|].
  destruct (Nat.le_ge_cases (a_n a) (a_n b)).
  - right. right. split; [by symmetry|done].
  - left. by right.
Qed.

#[global] Instance desc_order_trans : Transitive before.
Proof.
  intros a b c. rewrite !before_spec. unfold desc_order.
  destruct (a_avg_rating a) as [x|], (a_avg_rating b) as [y|],
    (a_avg_rating c) as [z|]; try tauto; [|lia].
  intros [L1|[E1 N1]] [L2|[E2 N2]].
  - left. by apply Qlt_trans with y.
  - left. by rewrite <- E2.
  - left. by rewrite E1.
  - right. split; [by rewrite E1|lia].
Qed.

Lemma StronglySorted_impl {A} (R R' : relation A) l :
  (forall x y, R x y -> R' x y) -> StronglySorted R l -> StronglySorted R' l.
Proof.
  intros HR. induction 1 as [|x l Hl IH Hx]; constructor; [done|].
  eapply Forall_impl; [exact Hx|]. intros y. apply HR.
Qed.

Lemma analysis_query_sorted rows : StronglySorted desc_order (analysis_query rows).
Proof.
  apply (StronglySorted_impl before); [intros x y; apply before_spec|].
  apply StronglySorted_merge_sort; apply _.
Qed.

Lemma analysis_query_perm rows :
  analysis_query rows ≡ₚ map aggregate (group_by_title rows).
Proof. apply merge_sort_Permutation. Qed.

Lemma titles_of_groups rows :
  map a_title (map aggregate (group_by_title rows)) = remove_dups (map f_title rows).
Proof.
  unfold group_by_title. rewrite !map_map. simpl. apply map_id.
Qed.

Lemma analysis_query_titles rows :
  map a_title (analysis_query rows) ≡ₚ remove_dups (map f_title rows).
Proof.
  rewrite <- titles_of_groups.
  apply (fmap_Permutation a_title), analysis_query_perm.
Qed.

(** Every row of the result is the aggregate of the rows of its title. *)
Lemma analysis_query_group rows a :
  a ∈ analysis_query rows ->
  a = aggregate (a_title a, List.filter (same_title (a_title a)) rows).
Proof.
  rewrite analysis_query_perm. unfold group_by_title. rewrite map_map.
  intros H. apply list_elem_of_In, in_map_iff in H as (t & <- & _). reflexivity.
Qed.

Lemma analysis_query_nil rows : analysis_query rows = [] <-> rows = [].
Proof.
  split.
  - intros H. pose proof (analysis_query_titles rows) as P. rewrite H in P.
    simpl in P. apply Permutation_nil_l in P.
    destruct rows as [|r rows]; [done|].
    assert (Hin : f_title r ∈ remove_dups (map f_title (r :: rows)))
      by (apply elem_of_remove_dups; simpl; by left).
    rewrite <- P in Hin. by apply not_elem_of_nil in Hin.
  - intros ->. reflexivity.
Qed.

(** *** Rounding to two decimals *)

Lemma hundredths_nearest q :
  (2 * Z.abs (hundredths q * Z.pos (Qden q) - Qnum q * 100) <= Z.pos (Qden q))%Z.
Proof.
  unfold hundredths.
  set (n := (Qnum q * 100)%Z). set (d := Z.pos (Qden q)).
  assert (Hd : (0 < d)%Z) by (subst d; lia).
  set (m := ((2 * Z.abs n + d) / (2 * d))%Z).
  assert (Hlo : (2 * d * m <= 2 * Z.abs n + d)%Z)
    by (subst m; apply Z.mul_div_le; lia).
  assert (Hhi : (2 * Z.abs n + d < 2 * d * Z.succ m)%Z)
    by (subst m; apply Z.mul_succ_div_gt; lia).
  destruct (Z.sgn_spec n) as [[Hn ->]|[[Hn ->]|[Hn ->]]]; nia.
Qed.

Lemma round2_value q : (round2 q == hundredths q # 100)%Q.
Proof. apply Qred_correct. Qed.

(** [round2 q] is a multiple of 1/100 at distance at most 1/200 from [q]. *)
Lemma round2_nearest q : (Qabs (round2 q - q) <= 1 # 200)%Q.
Proof.
  rewrite round2_value. apply Qabs_Qle_condition.
  pose proof (hundredths_nearest q) as H.
  destruct q as [n d]. simpl in H. unfold Qle, Qminus, Qplus, Qopp. simpl.
  rewrite !Pos2Z.inj_mul. split; nia.
Qed.

(** ** The analysis task *)

Lemma makedirs_output w :
  makedirs OUTPUT_DIR w =
    match fs w !! OUTPUT_DIR with
    | Some (File _) => Raised (FileExistsError OUTPUT_DIR) w
    | _ => Returned tt (made_output w)
    end.
Proof.
  unfold makedirs, made_output, modify_fs.
  by destruct (fs w !! OUTPUT_DIR) as [[c|d]|].
Qed.

Lemma made_output_dir w :
  (forall c, fs w !! OUTPUT_DIR <> Some (File c)) ->
  fs (made_output w) !! OUTPUT_DIR = Some (Dir (out_entries w)).
Proof.
  intros H. unfold made_output, out_entries.
  destruct (fs w !! OUTPUT_DIR) as [[c|d]|] eqn:E; [by destruct (H c)|done|].
  simpl. apply lookup_insert_eq.
Qed.

Section AnalysisFacts.

Variable render : list agg_row -> exn + string.

(** The outcome of the [try] ... [except] ... [raise] of [simple_analysis],
    case by case, in a world whose output directory exists. *)
Lemma analysis_cases v d rows :
  fs v !! OUTPUT_DIR = Some (Dir d) ->
  fact_movie_ratings (db v) = Some rows ->
  let df := analysis_query rows in
  let boom e :=
    Raised e (logged [Analysis_row_count (length df);
                      perform_analysis_failed e; Traceback e] v) in
  let d1 := <["avg_ratings.csv" := File (Csv (agg_frame df))]> d in
  let v1 := csv_written v d df in
  try_except (analysis_try render) analysis_except v =
    if bool_decide (df = [])
    then boom (ValueError "Analysis query returned 0 rows — check upstream merge.")
    else
      match d !! "avg_ratings.csv" with
      | Some (Dir _) => boom (IsADirectoryError (join OUTPUT_DIR "avg_ratings.csv"))
      | _ =>
          match render (top10 df) with
          | inl e => Returned tt (logged [Plotting_skipped e] v1)
          | inr png =>
              match d1 !! "avg_ratings_top10.png" with
              | Some (Dir _) =>
                  Returned tt
                    (logged [Plotting_skipped
                               (IsADirectoryError (join OUTPUT_DIR "avg_ratings_top10.png"))] v1)
              | _ => Returned tt (png_written v1 d1 png)
              end
          end
      end.
Proof.
  intros Hd Hf df boom d1 v1. subst df boom d1 v1.
  unfold analysis_try, analysis_except, read_sql_q, read_sql, plot_top10, write_file,
    opendir, logged, csv_written, png_written.
  io_unfold. rewrite Hf. simpl.
  destruct (bool_decide (analysis_query rows = [])) eqn:B; simpl; [done|].
  rewrite Hd. simpl.
  destruct (d !! "avg_ratings.csv") as [[c|e]|] eqn:E; simpl; try done.
  all: destruct (render _) as [e|png]; simpl; [done|].
  all: rewrite lookup_insert_eq; simpl.
  all: by destruct (_ !! "avg_ratings_top10.png") as [[c'|e']|] eqn:E'.
Qed.

Lemma simple_analysis_unfold w :
  simple_analysis render w =
    match fs w !! OUTPUT_DIR with
    | Some (File _) => Raised (FileExistsError OUTPUT_DIR) w
    | _ => try_except (analysis_try render) analysis_except (made_output w)
    end.
Proof.
  unfold simple_analysis, mbind, io_bind. rewrite makedirs_output.
  by destruct (fs w !! OUTPUT_DIR) as [[c|d]|].
Qed.

Lemma analysis_no_relation v :
  fact_movie_ratings (db v) = None ->
  try_except (analysis_try render) analysis_except v =
    Raised (ProgrammingError "fact_movie_ratings")
      (logged [perform_analysis_failed (ProgrammingError "fact_movie_ratings");
               Traceback (ProgrammingError "fact_movie_ratings")] v).
Proof.
  intros Hf. unfold analysis_try, analysis_except, read_sql_q, read_sql, logged.
  io_unfold. by rewrite Hf.
Qed.

End AnalysisFacts.

(** C5: over a fact relation the analysis query returns one row per distinct
    title; the row of a title carries the number of fact rows of that title
    and the mean of their ratings rounded to two decimals (a multiple of
    1/100 within 1/200 of the mean); the rows are ordered by mean descending
    and, among equal means, by count descending; a non-empty fact relation
    gives at least one row, and when the query returns no row
    simple_analysis raises. *)
Theorem C5_analysis_query (render : list agg_row -> exn + string)
    (w : World) (rows : list fact) :
  fact_movie_ratings (db w) = Some rows ->
  read_sql_q w = Returned (analysis_query rows) w
  /\ NoDup (map a_title (analysis_query rows))
  /\ (forall t, t ∈ map a_title (analysis_query rows) <-> t ∈ map f_title rows)
  /\ (forall a, a ∈ analysis_query rows ->
        a_n a = length (List.filter (same_title (a_title a)) rows)
        /\ a_avg_rating a =
             fmap (M:=option) round2
               (avg (map f_rating (List.filter (same_title (a_title a)) rows)))
        /\ forall m, avg (map f_rating (List.filter (same_title (a_title a)) rows)) = Some m ->
             exists x k, a_avg_rating a = Some x
               /\ (x == k # 100)%Q /\ (Qabs (x - m) <= 1 # 200)%Q)
  /\ StronglySorted desc_order (analysis_query rows)
  /\ (rows <> [] -> analysis_query rows <> [])
  /\ (analysis_query rows = [] -> returned (simple_analysis render w) = false).
Proof.
  intros Hf. split; [|split; [|split; [|split; [|split; [|split]]]]].
  - unfold read_sql_q.
    by rewrite (bind_returned _ _ _ _ _ (read_sql_some _ _ _ _ Hf)).
  - rewrite analysis_query_titles. apply NoDup_remove_dups.
  - intros t. rewrite analysis_query_titles. apply elem_of_remove_dups.
  - intros a Ha. apply analysis_query_group in Ha.
    set (g := List.filter (same_title (a_title a)) rows) in *.
    split; [by rewrite Ha at 1|]. split; [by rewrite Ha at 1|].
    intros m Hm. exists (round2 m), (hundredths m).
    split; [rewrite Ha at 1; simpl; by rewrite Hm|].
    split; [apply round2_value|apply round2_nearest].
  - apply analysis_query_sorted.
  - intros Hne E. by apply analysis_query_nil in E.
  - intros E. rewrite simple_analysis_unfold.
    destruct (fs w !! OUTPUT_DIR) as [[c|d]|] eqn:Ho; [done| |].
    + assert (Hv : fs (made_output w) !! OUTPUT_DIR = Some (Dir d))
        by (unfold made_output; by rewrite Ho).
      assert (Hfv : fact_movie_ratings (db (made_output w)) = Some rows)
        by (unfold made_output; by rewrite Ho).
      rewrite (analysis_cases render _ _ _ Hv Hfv). simpl.
      by rewrite bool_decide_eq_true_2.
    + assert (Hv : fs (made_output w) !! OUTPUT_DIR = Some (Dir ∅))
        by (unfold made_output; rewrite Ho; apply lookup_insert_eq).
      assert (Hfv : fact_movie_ratings (db (made_output w)) = Some rows)
        by (unfold made_output; by rewrite Ho).
      rewrite (analysis_cases render _ _ _ Hv Hfv). simpl.
      by rewrite bool_decide_eq_true_2.
Qed.

Lemma logged_db ls w : db (logged ls w) = db w.
Proof. reflexivity. Qed.
Lemma logged_fs ls w : fs (logged ls w) = fs w.
Proof. reflexivity. Qed.

Lemma made_output_db w : db (made_output w) = db w.
Proof. unfold made_output. by destruct (fs w !! OUTPUT_DIR) as [[c|d]|]. Qed.

Lemma made_output_log w : log (made_output w) = log w.
Proof. unfold made_output. by destruct (fs w !! OUTPUT_DIR) as [[c|d]|]. Qed.

Lemma made_output_other w p :
  p <> OUTPUT_DIR -> fs (made_output w) !! p = fs w !! p.
Proof.
  intros Hp. unfold made_output. destruct (fs w !! OUTPUT_DIR) as [[c|d]|]; try done.
  simpl. by rewrite lookup_insert_ne.
Qed.

(** How [simple_analysis] ends when the query returns rows and the primary
    artifact can be written. *)
Lemma simple_analysis_primary render w rows :
  fact_movie_ratings (db w) = Some rows ->
  rows <> [] ->
  primary_writable w = true ->
  let df := analysis_query rows in
  let d1 := <["avg_ratings.csv" := File (Csv (agg_frame df))]> (out_entries w) in
  let v1 := csv_written (made_output w) (out_entries w) df in
  simple_analysis render w =
    match render (top10 df) with
    | inl e => Returned tt (logged [Plotting_skipped e] v1)
    | inr png =>
        match out_entries w !! "avg_ratings_top10.png" with
        | Some (Dir _) =>
            Returned tt
              (logged [Plotting_skipped
                         (IsADirectoryError (join OUTPUT_DIR "avg_ratings_top10.png"))] v1)
        | _ => Returned tt (png_written v1 d1 png)
        end
    end.
Proof.
  intros Hf Hne Hp df d1 v1. subst df d1 v1.
  assert (Hfile : forall c, fs w !! OUTPUT_DIR <> Some (File c)).
  { intros c E. unfold primary_writable in Hp. by rewrite E in Hp. }
  assert (Hcsv : forall x, out_entries w !! "avg_ratings.csv" <> Some (Dir x)).
  { intros x E. unfold primary_writable in Hp. rewrite E in Hp.
    by destruct (fs w !! OUTPUT_DIR) as [[c|d]|]. }
  rewrite simple_analysis_unfold.
  assert (Hfv : fact_movie_ratings (db (made_output w)) = Some rows)
    by (by rewrite made_output_db).
  rewrite (analysis_cases render _ _ _ (made_output_dir w Hfile) Hfv). simpl.
  rewrite bool_decide_eq_false_2 by (by rewrite analysis_query_nil).
  rewrite lookup_insert_ne by done.
  destruct (fs w !! OUTPUT_DIR) as [[c|d]|] eqn:Ho; [by destruct (Hfile c)| |].
  all: destruct (out_entries w !! "avg_ratings.csv") as [[c|x]|] eqn:E;
    [done|by destruct (Hcsv x)|done].
Qed.

(** C6: when the fact relation has rows and the primary artifact can be
    written, simple_analysis returns whatever the rendering does; the store
    is untouched and avg_ratings.csv holds the rows of the query.  If the
    rendering raises e (while drawing, or because the PNG path is a
    directory), the output ends with the line of the written CSV followed by
    "Plotting skipped due to error: e". *)
Theorem C6_plot_failure_swallowed (render : list agg_row -> exn + string)
    (w : World) (rows : list fact) :
  fact_movie_ratings (db w) = Some rows ->
  rows <> [] ->
  primary_writable w = true ->
  exists w',
    simple_analysis render w = Returned tt w'
    /\ db w' = db w
    /\ (exists d', fs w' !! OUTPUT_DIR = Some (Dir d')
          /\ d' !! "avg_ratings.csv" = Some (File (Csv (agg_frame (analysis_query rows)))))
    /\ let skipped e :=
         log w' =
           (log w ++ [Analysis_row_count (length (analysis_query rows));
                         Wrote_full_CSV (join OUTPUT_DIR "avg_ratings.csv");
                         Plotting_skipped e])%list in
       match render (top10 (analysis_query rows)) with
       | inl e => skipped e
       | inr png =>
           match out_entries w !! "avg_ratings_top10.png" with
           | Some (Dir _) =>
               skipped (IsADirectoryError (join OUTPUT_DIR "avg_ratings_top10.png"))
           | _ =>
               log w' =
                 (log w ++ [Analysis_row_count (length (analysis_query rows));
                               Wrote_full_CSV (join OUTPUT_DIR "avg_ratings.csv");
                               Wrote_PNG (join OUTPUT_DIR "avg_ratings_top10.png")])%list
           end
       end.
Proof.
  intros Hf Hne Hp. rewrite (simple_analysis_primary render w rows Hf Hne Hp).
  assert (Hcsv : forall (d : gmap string node) (x : node), <["avg_ratings_top10.png" := x]>
            (<["avg_ratings.csv" := File (Csv (agg_frame (analysis_query rows)))]> d)
            !! "avg_ratings.csv"
          = Some (File (Csv (agg_frame (analysis_query rows))))).
  { intros d x. rewrite lookup_insert_ne by done. apply lookup_insert_eq. }
  destruct (render (top10 (analysis_query rows))) as [e|png].
  - eexists. split; [reflexivity|]. split; [apply made_output_db|]. split.
    + eexists. split; [apply lookup_insert_eq|apply lookup_insert_eq].
    + simpl. rewrite made_output_log. by rewrite <- !app_assoc.
  - destruct (out_entries w !! "avg_ratings_top10.png") as [[c|x]|] eqn:E.
    + eexists. split; [reflexivity|]. split; [apply made_output_db|]. split.
      * eexists. split; [apply lookup_insert_eq|apply Hcsv].
      * simpl. rewrite made_output_log. by rewrite <- !app_assoc.
    + eexists. split; [reflexivity|]. split; [apply made_output_db|]. split.
      * eexists. split; [apply lookup_insert_eq|apply lookup_insert_eq].
      * simpl. rewrite made_output_log. by rewrite <- !app_assoc.
    + eexists. split; [reflexivity|]. split; [apply made_output_db|]. split.
      * eexists. split; [apply lookup_insert_eq|apply Hcsv].
      * simpl. rewrite made_output_log. by rewrite <- !app_assoc.
Qed.

(** C9: when the output directory does not exist, simple_analysis creates
    it before anything is written: the directory exists after the task
    however the task ends; the task raises only for a missing fact relation
    or an empty query result, never for the missing directory; and with a
    non-empty fact relation it returns, avg_ratings.csv in the new directory
    holding the rows of the query. *)
Theorem C9_output_dir_created (render : list agg_row -> exn + string) (w : World) :
  fs w !! OUTPUT_DIR = None ->
  (exists d', fs (world_of (simple_analysis render w)) !! OUTPUT_DIR = Some (Dir d'))
  /\ (forall e w', simple_analysis render w = Raised e w' ->
        e = ProgrammingError "fact_movie_ratings"
        \/ e = ValueError "Analysis query returned 0 rows — check upstream merge.")
  /\ (forall rows, fact_movie_ratings (db w) = Some rows -> rows <> [] ->
        exists w' d',
          simple_analysis render w = Returned tt w'
          /\ fs w' !! OUTPUT_DIR = Some (Dir d')
          /\ d' !! "avg_ratings.csv"
             = Some (File (Csv (agg_frame (analysis_query rows))))).
Proof.
  intros Ho.
  assert (Hfile : forall c, fs w !! OUTPUT_DIR <> Some (File c)) by (intros c; congruence).
  assert (Hv : fs (made_output w) !! OUTPUT_DIR = Some (Dir ∅)).
  { rewrite (made_output_dir w Hfile). unfold out_entries. by rewrite Ho. }
  assert (Hp : primary_writable w = true).
  { unfold primary_writable, out_entries. by rewrite Ho. }
  assert (Hcsv : forall (d : gmap string node) (x : node) rows,
            <["avg_ratings_top10.png" := x]>
              (<["avg_ratings.csv" := File (Csv (agg_frame (analysis_query rows)))]> d)
              !! "avg_ratings.csv"
            = Some (File (Csv (agg_frame (analysis_query rows))))).
  { intros d x rows. rewrite lookup_insert_ne by done. apply lookup_insert_eq. }
  destruct (fact_movie_ratings (db w)) as [rows|] eqn:Hf.
  - destruct (decide (rows = [])) as [->|Hne].
    + assert (Hfv : fact_movie_ratings (db (made_output w)) = Some [])
        by (by rewrite made_output_db).
      assert (E : simple_analysis render w = Raised
          (ValueError "Analysis query returned 0 rows — check upstream merge.")
          (logged [Analysis_row_count 0;
                   perform_analysis_failed
                     (ValueError "Analysis query returned 0 rows — check upstream merge.");
                   Traceback
                     (ValueError "Analysis query returned 0 rows — check upstream merge.")]
             (made_output w))).
      { rewrite simple_analysis_unfold, Ho.
        by rewrite (analysis_cases render _ _ _ Hv Hfv). }
      rewrite E. simpl. split; [eauto|]. split; [|by intros rows' [= <-] Hne'].
      intros e w' [= <- _]. by right.
    + pose proof (simple_analysis_primary render w rows Hf Hne Hp) as E.
      simpl in E. unfold out_entries in E. rewrite Ho, lookup_empty in E.
      destruct (render (top10 (analysis_query rows))) as [e|png].
      * rewrite E. simpl. split; [rewrite lookup_insert_eq; eauto|].
        split; [done|]. intros rows' [= <-] _.
        eexists _, _. split; [reflexivity|].
        split; [apply lookup_insert_eq|apply lookup_insert_eq].
      * rewrite E. simpl. split; [rewrite lookup_insert_eq; eauto|].
        split; [done|]. intros rows' [= <-] _.
        eexists _, _. split; [reflexivity|].
        split; [apply lookup_insert_eq|apply Hcsv].
  - assert (Hfv : fact_movie_ratings (db (made_output w)) = None)
      by (by rewrite made_output_db).
    assert (E : simple_analysis render w = Raised (ProgrammingError "fact_movie_ratings")
        (logged [perform_analysis_failed (ProgrammingError "fact_movie_ratings");
                 Traceback (ProgrammingError "fact_movie_ratings")] (made_output w))).
    { rewrite simple_analysis_unfold, Ho. by apply analysis_no_relation. }
    rewrite E. simpl. split; [eauto|]. split; [|done].
    intros e w' [= <- _]. by left.
Qed.

(** ** Failure propagation in the orchestrator *)

Module OrchestratorFacts.
Import Orchestrator.

Lemma is_status_true s r t : is_status s r t = true <-> state (r t) = s.
Proof. unfold is_status. apply bool_decide_eq_true. Qed.

(** An event changes the instance of its target only, and the target was
    [pending] or [running]. *)
Lemma step_other r e r' u :
  step r e = Some r' -> u <> target e -> r' u = r u.
Proof.
  intros H Hu. destruct e as [t|t|t|t]; simpl in *;
    match type of H with (if ?c then _ else _) = _ => destruct c; [|done] end;
    injection H as <-; unfold set_instance; by rewrite decide_False.
Qed.

Lemma step_target_live r e r' :
  step r e = Some r' ->
  state (r (target e)) = pending \/ state (r (target e)) = running.
Proof.
  intros H. destruct e as [t|t|t|t]; simpl in *.
  - destruct (is_status pending r t) eqn:E; [|done]. left. by apply is_status_true.
  - destruct (is_status running r t) eqn:E; [|done]. right. by apply is_status_true.
  - destruct (is_status running r t) eqn:E; [|done]. right. by apply is_status_true.
  - destruct (is_status pending r t) eqn:E; [|done]. left. by apply is_status_true.
Qed.

(** [succeeded], [failed] and [skipped] are final. *)
Lemma step_final r e r' u :
  step r e = Some r' ->
  state (r u) = succeeded \/ state (r u) = failed \/ state (r u) = skipped ->
  r' u = r u.
Proof.
  intros H Hu. apply (step_other r e); [done|]. intros ->.
  destruct (step_target_live _ _ _ H) as [E|E]; rewrite E in Hu;
    by destruct Hu as [?|[?|?]].
Qed.

Lemma step_target r e r' :
  step r e = Some r' ->
  match e with
  | Dispatch t =>
      state (r t) = pending
      /\ (forall u, u ∈ upstream t -> state (r u) = succeeded)
      /\ r' t = mkInstance running (S (tries (r t)))
  | Succeed t => state (r t) = running /\ r' t = mkInstance succeeded (tries (r t))
  | Fail t =>
      state (r t) = running
      /\ r' t = mkInstance (if (tries (r t) <=? retries)%nat then pending else failed)
                           (tries (r t))
  | Skip t => state (r t) = pending /\ r' t = mkInstance skipped (tries (r t))
  end.
Proof.
  intros H. destruct e as [t|t|t|t]; simpl in *.
  - destruct (is_status pending r t) eqn:E; [|done]. simpl in H.
    destruct (forallb _ _) eqn:F; [|done]. injection H as <-.
    split; [by apply is_status_true|]. split.
    + intros u Hu. rewrite forallb_forall in F. apply is_status_true, F.
      by apply list_elem_of_In.
    + unfold set_instance. by rewrite decide_True.
  - destruct (is_status running r t) eqn:E; [|done]. injection H as <-.
    split; [by apply is_status_true|]. unfold set_instance. by rewrite decide_True.
  - destruct (is_status running r t) eqn:E; [|done]. injection H as <-.
    split; [by apply is_status_true|]. unfold set_instance. by rewrite decide_True.
  - destruct (is_status pending r t) eqn:E; [|done]. simpl in H.
    destruct (existsb _ _) eqn:F; [|done]. injection H as <-.
    split; [by apply is_status_true|]. unfold set_instance. by rewrite decide_True.
Qed.

Lemma step_tries r e r' t :
  step r e = Some r' ->
  tries (r' t) = (tries (r t) + if bool_decide (e = Dispatch t) then 1 else 0)%nat.
Proof.
  intros H. destruct (decide (t = target e)) as [->|Hne].
  - pose proof (step_target _ _ _ H) as T.
    destruct e as [t|t|t|t]; cbn [target] in *.
    + destruct T as (_ & _ & ->). rewrite bool_decide_eq_true_2 by done. simpl. lia.
    + destruct T as (_ & ->). rewrite bool_decide_eq_false_2 by done. simpl. lia.
    + destruct T as (_ & ->). rewrite bool_decide_eq_false_2 by done. simpl. lia.
    + destruct T as (_ & ->). rewrite bool_decide_eq_false_2 by done. simpl. lia.
  - rewrite (step_other _ _ _ _ H Hne).
    rewrite bool_decide_eq_false_2; [lia|]. intros ->. by apply Hne.
Qed.

Lemma invariant_init : invariant init.
Proof.
  split; [|split].
  - intros t [H|[H|H]]; discriminate.
  - intros t u H. simpl in H. lia.
  - intros t. simpl. repeat split; try lia. discriminate.
Qed.

Lemma invariant_step r e r' : step r e = Some r' -> invariant r -> invariant r'.
Proof.
  intros H (I1 & I2 & I3).
  pose proof (step_target _ _ _ H) as T.
  split; [|split].
  - intros t Ht. destruct (decide (t = target e)) as [->|Hne].
    + destruct e as [t|t|t|t]; cbn [target] in *.
      * destruct T as (_ & _ & E). rewrite E. simpl. lia.
      * destruct T as (R & E). rewrite E. simpl. apply I1. by left.
      * destruct T as (R & E). rewrite E. simpl. apply I1. by left.
      * destruct T as (_ & E). rewrite E in Ht. simpl in Ht.
        by destruct Ht as [?|[?|?]].
    + rewrite (step_other _ _ _ _ H Hne) in *. by apply I1.
  - intros t u Ht Hu.
    assert (Hup : state (r u) = succeeded).
    { destruct (decide (t = target e)) as [->|Hne].
      - destruct e as [t|t|t|t]; cbn [target] in *.
        + destruct T as (_ & Hall & _). by apply Hall.
        + destruct T as (_ & E). rewrite E in Ht. by apply (I2 t).
        + destruct T as (_ & E). rewrite E in Ht. by apply (I2 t).
        + destruct T as (_ & E). rewrite E in Ht. by apply (I2 t).
      - rewrite (step_other _ _ _ _ H Hne) in Ht. by apply (I2 t). }
    rewrite (step_final _ _ _ u H); [done|by left].
  - intros t. destruct (I3 t) as (B1 & B2 & B3).
    destruct (decide (t = target e)) as [->|Hne].
    + destruct e as [t|t|t|t]; cbn [target] in *.
      * destruct T as (P & _ & E). rewrite E. simpl.
        specialize (B1 P). repeat split; try lia; discriminate.
      * destruct T as (_ & E). rewrite E. simpl. repeat split; try lia; discriminate.
      * destruct T as (_ & E). rewrite E. simpl.
        destruct (Nat.leb_spec (tries (r t)) retries); repeat split; try lia; discriminate.
      * destruct T as (P & E). rewrite E. simpl.
        specialize (B1 P). repeat split; try lia; discriminate.
    + by rewrite (step_other _ _ _ _ H Hne).
Qed.

Lemma invariant_exec evs : forall r r',
  exec evs r = Some r' -> invariant r -> invariant r'.
Proof.
  induction evs as [|e evs IH]; intros r r' H I; simpl in H.
  - by injection H as <-.
  - destruct (step r e) as [r1|] eqn:S; [|done].
    apply (IH r1); [done|]. by apply (invariant_step r e).
Qed.

(** The number of dispatches of a task in a run is its [tries]. *)
Lemma exec_tries evs t : forall r r',
  exec evs r = Some r' ->
  tries (r' t) = (tries (r t) + count_occ event_eq_dec evs (Dispatch t))%nat.
Proof.
  induction evs as [|e evs IH]; intros r r' H; simpl in H.
  - injection H as <-. simpl. lia.
  - destruct (step r e) as [r1|] eqn:S; [|done].
    rewrite (IH _ _ H), (step_tries _ _ _ t S). simpl.
    destruct (event_eq_dec e (Dispatch t)) as [->|Hne].
    + rewrite bool_decide_eq_true_2 by done. lia.
    + rewrite bool_decide_eq_false_2 by done. lia.
Qed.

Lemma terminal_final r t :
  terminal r = true ->
  state (r t) = succeeded \/ state (r t) = failed \/ state (r t) = skipped.
Proof.
  intros H. unfold terminal in H. rewrite forallb_forall in H.
  assert (Hin : In t all_tasks) by (destruct t; simpl; tauto).
  specialize (H t Hin). apply negb_true_iff, orb_false_iff in H as [P R].
  unfold is_status in P, R. apply bool_decide_eq_false in P, R.
  destruct (state (r t)); tauto.
Qed.

(** In a finished run, a task with an upstream task that did not succeed
    was never dispatched and ended [skipped]. *)
Lemma blocked_skipped r t u :
  invariant r -> terminal r = true ->
  u ∈ upstream t -> state (r u) <> succeeded ->
  state (r t) = skipped /\ tries (r t) = 0%nat.
Proof.
  intros (I1 & I2 & _) Hterm Hu Hns.
  assert (Z : tries (r t) = 0%nat).
  { destruct (tries (r t)) eqn:E; [done|].
    destruct Hns. apply (I2 t); [lia|done]. }
  split; [|done].
  destruct (terminal_final r t Hterm) as [S|[F|S]]; [| |done].
  - assert (0 < tries (r t))%nat by (apply I1; tauto). lia.
  - assert (0 < tries (r t))%nat by (apply I1; tauto). lia.
Qed.

(** C3: in every finished run in which one loader ended succeeded and the
    other ended failed, the failed loader was dispatched retries + 1 times,
    merge, validation, analysis and both cleanup tasks ended skipped without
    ever being dispatched, and the run is failed. *)
Theorem C3_failed_loader_skips_downstream (evs : list event) (r : run) :
  exec evs init = Some r ->
  terminal r = true ->
  (state (r t_movies) = succeeded /\ state (r t_ratings) = failed)
  \/ (state (r t_movies) = failed /\ state (r t_ratings) = succeeded) ->
  (forall t, t ∈ downstream_of_loaders ->
     state (r t) = skipped /\ tries (r t) = 0%nat /\ Dispatch t ∉ evs)
  /\ (forall t, state (r t) = failed -> tries (r t) = S retries)
  /\ run_status r = run_failed.
Proof.
  intros Hexec Hterm Hloaders.
  assert (I : invariant r) by (apply (invariant_exec evs init); [done|apply invariant_init]).
  assert (Hmerge : state (r t_merge) = skipped /\ tries (r t_merge) = 0%nat).
  { destruct Hloaders as [[_ F]|[F _]].
    - apply (blocked_skipped r t_merge t_ratings); try done.
      + apply list_elem_of_In. simpl. tauto.
      + congruence.
    - apply (blocked_skipped r t_merge t_movies); try done.
      + apply list_elem_of_In. simpl. tauto.
      + congruence. }
  assert (Hvalidate : state (r t_validate) = skipped /\ tries (r t_validate) = 0%nat).
  { apply (blocked_skipped r t_validate t_merge); try done.
    - apply list_elem_of_In. simpl. tauto.
    - destruct Hmerge. congruence. }
  assert (Hanalyze : state (r t_analyze) = skipped /\ tries (r t_analyze) = 0%nat).
  { apply (blocked_skipped r t_analyze t_validate); try done.
    - apply list_elem_of_In. simpl. tauto.
    - destruct Hvalidate. congruence. }
  assert (Hdb : state (r t_cleanup_db) = skipped /\ tries (r t_cleanup_db) = 0%nat).
  { apply (blocked_skipped r t_cleanup_db t_analyze); try done.
    - apply list_elem_of_In. simpl. tauto.
    - destruct Hanalyze. congruence. }
  assert (Hfiles : state (r t_cleanup_files) = skipped
                   /\ tries (r t_cleanup_files) = 0%nat).
  { apply (blocked_skipped r t_cleanup_files t_analyze); try done.
    - apply list_elem_of_In. simpl. tauto.
    - destruct Hanalyze. congruence. }
  split; [|split].
  - intros t Ht.
    assert (H : state (r t) = skipped /\ tries (r t) = 0%nat).
    { unfold downstream_of_loaders in Ht.
      repeat (apply elem_of_cons in Ht as [->|Ht]; [done|]).
      by apply not_elem_of_nil in Ht. }
    destruct H as [S Z]. repeat split; try done.
    intros Hin. pose proof (exec_tries evs t _ _ Hexec) as E.
    rewrite Z in E. simpl in E.
    apply list_elem_of_In, (count_occ_In event_eq_dec) in Hin. lia.
  - intros t F. destruct I as (_ & _ & I3). by apply I3.
  - unfold run_status.
    assert (E : existsb (is_status failed r) all_tasks = true).
    { apply existsb_exists. destruct Hloaders as [[_ F]|[F _]].
      - exists t_ratings. split; [simpl; tauto|by apply is_status_true].
      - exists t_movies. split; [simpl; tauto|by apply is_status_true]. }
    by rewrite E.
Qed.

Lemma C3_failed_loader_skips_downstream_witness :
  (forall t, t ∈ downstream_of_loaders ->
     state (ratings_fail_run t) = skipped /\ tries (ratings_fail_run t) = 0%nat
     /\ Dispatch t ∉ ratings_fail_trace)
  /\ (forall t, state (ratings_fail_run t) = failed -> tries (ratings_fail_run t) = S retries)
  /\ run_status ratings_fail_run = run_failed.
Proof.
  apply (C3_failed_loader_skips_downstream ratings_fail_trace ratings_fail_run).
  - reflexivity.
  - reflexivity.
  - left. split; reflexivity.
Defined.

(** *** Every run ends *)

Lemma exec_app evs1 evs2 r :
  exec (evs1 ++ evs2) r =
    match exec evs1 r with Some r1 => exec evs2 r1 | None => None end.
Proof.
  revert r. induction evs1 as [|e evs1 IH]; intros r; simpl; [done|].
  by destruct (step r e).
Qed.

(** A task whose upstream tasks are final can be brought to a final status. *)
Lemma settle r t :
  (forall u, u ∈ upstream t -> final r u) ->
  exists evs r', exec evs r = Some r' /\ final r' t /\ forall u, u <> t -> r' u = r u.
Proof.
  intros Hup. destruct (state (r t)) eqn:E.
  - destruct (forallb (is_status succeeded r) (upstream t)) eqn:F.
    + exists [Dispatch t; Succeed t]. eexists. split; [|split].
      * simpl. unfold is_status at 1. rewrite bool_decide_eq_true_2 by done.
        rewrite F. simpl. unfold is_status, set_instance.
        rewrite decide_True by done. simpl. reflexivity.
      * unfold final, set_instance. rewrite decide_True by done. simpl. tauto.
      * intros u Hu. unfold set_instance. by rewrite !decide_False.
    + exists [Skip t]. eexists. split; [|split].
      * simpl. unfold is_status at 1. rewrite bool_decide_eq_true_2 by done.
        assert (X : existsb (fun u => is_status failed r u || is_status skipped r u)
                      (upstream t) = true).
        { destruct (existsb _ _) eqn:X; [done|]. exfalso.
          assert (A : forallb (is_status succeeded r) (upstream t) = true);
            [|congruence].
          apply forallb_forall. intros u Hu.
          assert (Hn : is_status failed r u || is_status skipped r u = false).
          { destruct (is_status failed r u || is_status skipped r u) eqn:Y; [|done].
            assert (B : existsb (fun u => is_status failed r u || is_status skipped r u)
                          (upstream t) = true) by (apply existsb_exists; eauto).
            congruence. }
          apply orb_false_iff in Hn as [Hf Hs].
          unfold is_status in *. apply bool_decide_eq_false in Hf, Hs.
          apply bool_decide_eq_true.
          destruct (Hup u) as [?|[?|?]]; [by apply list_elem_of_In|done..]. }
        rewrite X. simpl. reflexivity.
      * unfold final, set_instance. rewrite decide_True by done. simpl. tauto.
      * intros u Hu. unfold set_instance. by rewrite decide_False.
  - exists [Succeed t]. eexists. split; [|split].
    + simpl. unfold is_status. rewrite bool_decide_eq_true_2 by done. reflexivity.
    + unfold final, set_instance. rewrite decide_True by done. simpl. tauto.
    + intros u Hu. unfold set_instance. by rewrite decide_False.
  - exists [], r. unfold final. simpl. tauto.
  - exists [], r. unfold final. simpl. tauto.
  - exists [], r. unfold final. simpl. tauto.
Qed.

Lemma settle_all ts : forall settled r,
  ordered settled ts = true ->
  (forall u, u ∈ settled -> final r u) ->
  exists evs r', exec evs r = Some r' /\ forall u, u ∈ (settled ++ ts)%list -> final r' u.
Proof.
  induction ts as [|t ts IH]; intros settled r Hord Hdone.
  - exists [], r. split; [done|]. intros u Hu. rewrite app_nil_r in Hu. by apply Hdone.
  - simpl in Hord. apply andb_true_iff in Hord as [Hup Hord].
    rewrite forallb_forall in Hup.
    destruct (settle r t) as (evs1 & r1 & E1 & F1 & O1).
    { intros u Hu. apply Hdone. apply list_elem_of_In in Hu.
      specialize (Hup u Hu). by apply bool_decide_eq_true in Hup. }
    destruct (IH (t :: settled) r1 Hord) as (evs2 & r2 & E2 & F2).
    { intros u Hu. apply elem_of_cons in Hu as [->|Hu]; [done|].
      destruct (decide (u = t)) as [->|Hne]; [done|].
      unfold final. rewrite (O1 u Hne). by apply Hdone. }
    exists (evs1 ++ evs2)%list, r2. split; [by rewrite exec_app, E1|].
    intros u Hu. apply F2. rewrite elem_of_app, elem_of_cons in Hu.
    rewrite elem_of_app, elem_of_cons. tauto.
Qed.

(** From any state of a run the scheduler can reach the end of the run. *)
Lemma run_can_finish r :
  exists evs r', exec evs r = Some r' /\ terminal r' = true.
Proof.
  destruct (settle_all all_tasks [] r) as (evs & r' & E & F); [done|by intros u Hu; apply not_elem_of_nil in Hu|].
  exists evs, r'. split; [done|]. unfold terminal. apply forallb_forall. intros t Ht.
  apply negb_true_iff, orb_false_iff. unfold is_status.
  destruct (F t) as [S|[S|S]]; [by apply list_elem_of_In|..];
    rewrite !bool_decide_eq_false; rewrite S; split; discriminate.
Qed.

(** Every event uses up some of the potential, so no run goes on for ever. *)
Lemma step_decreases r e r' :
  invariant r -> step r e = Some r' -> (potential r' < potential r)%nat.
Proof.
  intros (I1 & _ & I3) H.
  pose proof (step_target _ _ _ H) as T.
  pose proof (fun u => step_other r e r' u H) as O.
  unfold potential. simpl.
  destruct e as [t|t|t|t]; cbn [target] in *.
  - destruct T as (P & _ & E). destruct (I3 t) as (B & _ & _). specialize (B P).
    destruct t; rewrite E, !O by done; unfold weight; rewrite P; simpl; unfold retries in *; lia.
  - destruct T as (P & E). destruct (I3 t) as (_ & B & _).
    destruct t; rewrite E, !O by done; unfold weight; rewrite P; simpl; lia.
  - destruct T as (P & E). destruct (I3 t) as (_ & B & _).
    destruct t; rewrite E, !O by done; unfold weight; rewrite P; simpl;
      destruct (tries _ <=? retries)%nat; simpl; lia.
  - destruct T as (P & E).
    destruct t; rewrite E, !O by done; unfold weight; rewrite P; simpl; lia.
Qed.

Lemma exec_bounded evs : forall r r',
  invariant r -> exec evs r = Some r' -> (length evs + potential r' <= potential r)%nat.
Proof.
  induction evs as [|e evs IH]; intros r r' I H; simpl in H.
  - injection H as <-. simpl. lia.
  - destruct (step r e) as [r1|] eqn:S; [|done].
    pose proof (step_decreases _ _ _ I S).
    pose proof (IH r1 r' (invariant_step _ _ _ S I) H). simpl. lia.
Qed.

(** A run has at most 35 events. *)
Lemma run_length evs r : exec evs init = Some r -> (length evs <= 35)%nat.
Proof.
  intros H. pose proof (exec_bounded evs init r invariant_init H) as B.
  change (potential init) with 35%nat in B. lia.
Qed.

End OrchestratorFacts.

(** ** Re-running the pipeline *)

Lemma keeps_sources_same w w' :
  fs w' !! DATA_DIR = fs w !! DATA_DIR -> keeps_sources w w'.
Proof.
  intros H. unfold keeps_sources. destruct (fs w !! DATA_DIR) as [[c|d]|]; try done.
  exists d. split; [done|apply only_tmp_removed_refl].
Qed.

Lemma keeps_sources_refl w : keeps_sources w w.
Proof. by apply keeps_sources_same. Qed.

Lemma keeps_sources_trans w1 w2 w3 :
  keeps_sources w1 w2 -> keeps_sources w2 w3 -> keeps_sources w1 w3.
Proof.
  unfold keeps_sources. intros H12 H23.
  destruct (fs w1 !! DATA_DIR) as [[c|d]|].
  - by rewrite H12 in H23.
  - destruct H12 as (d2 & E2 & R12). rewrite E2 in H23.
    destruct H23 as (d3 & E3 & R23). exists d3. split; [done|].
    by apply (only_tmp_removed_trans d d2).
  - by rewrite H12 in H23.
Qed.

(** The store and every directory but the output directory are as before
    [simple_analysis], however it ends. *)
Lemma simple_analysis_frame render w :
  db (world_of (simple_analysis render w)) = db w
  /\ forall p, p <> OUTPUT_DIR -> fs (world_of (simple_analysis render w)) !! p = fs w !! p.
Proof.
  rewrite simple_analysis_unfold.
  destruct (fs w !! OUTPUT_DIR) as [[c|d]|] eqn:Ho; [done| |].
  all: assert (Hfile : forall c, fs w !! OUTPUT_DIR <> Some (File c))
         by (intros c; congruence).
  all: pose proof (made_output_dir w Hfile) as Hv.
  all: destruct (fact_movie_ratings (db w)) as [rows|] eqn:Hf.
  all: try (rewrite (analysis_no_relation render) by (by rewrite made_output_db);
            simpl; split; [apply made_output_db|apply made_output_other]).
  all: assert (Hfv : fact_movie_ratings (db (made_output w)) = Some rows)
         by (by rewrite made_output_db).
  all: rewrite (analysis_cases render _ _ _ Hv Hfv); simpl.
  all: destruct (bool_decide (analysis_query rows = []));
         [simpl; split; [apply made_output_db|apply made_output_other]|].
  all: destruct (out_entries w !! "avg_ratings.csv") as [[c|x]|];
         try (simpl; split; [apply made_output_db|apply made_output_other]).
  all: destruct (render _) as [e|png]; simpl.
  all: try (split; [apply made_output_db|];
            intros p Hp; rewrite lookup_insert_ne by done; by apply made_output_other).
  all: destruct (_ !! "avg_ratings_top10.png") as [[c'|x']|]; simpl.
  all: split; [apply made_output_db|].
  all: intros p Hp; rewrite ?lookup_insert_ne by done; by apply made_output_other.
Qed.

Lemma cleanup_files_db w : db (world_of (cleanup_files w)) = db w.
Proof.
  rewrite cleanup_files_unfold.
  destruct (fs w !! tmp_dir) as [[c|t]|] eqn:E; [done| |].
  all: destruct (fs (after_reset w) !! DATA_DIR) as [[c|d]|] eqn:Hd;
    [apply after_reset_db| |apply after_reset_db].
  all: destruct (cleanup_loop_frame (map fst (map_to_list d)) _ _ Hd) as (-> & _).
  all: apply after_reset_db.
Qed.

Lemma cleanup_files_keeps_sources w : keeps_sources w (world_of (cleanup_files w)).
Proof.
  unfold keeps_sources. destruct (fs w !! DATA_DIR) as [[c|d]|] eqn:Hd.
  - rewrite cleanup_files_unfold.
    destruct (fs w !! tmp_dir) as [[c'|t]|]; [done| |];
      rewrite after_reset_data, Hd; simpl; by rewrite after_reset_data.
  - by apply cleanup_files_data.
  - rewrite cleanup_files_unfold.
    destruct (fs w !! tmp_dir) as [[c'|t]|]; [done| |];
      rewrite after_reset_data, Hd; simpl; by rewrite after_reset_data.
Qed.

(** *** The loaders as functions of the sources *)

Lemma read_csv_source name w :
  read_csv DATA_DIR name w =
    match source name w with inr df => Returned df w | inl e => Raised e w end.
Proof.
  unfold source, read_csv, opendir. io_unfold.
  destruct (fs w !! DATA_DIR) as [[c|d]|]; try done.
  destruct (d !! name) as [[[s|df]|x]|]; try done.
  by destruct (rectangular df).
Qed.

Lemma source_keeps name w w' :
  keeps_sources w w' -> endswith name ".tmp" = false -> source name w' = source name w.
Proof.
  unfold keeps_sources, source, read_csv, opendir. io_unfold. intros H T.
  destruct (fs w !! DATA_DIR) as [[c|d]|].
  - by rewrite H.
  - destruct H as (d' & -> & R). rewrite (only_tmp_removed_keeps d d' name R T).
    destruct (d !! name) as [[[s|df]|x]|]; try done.
    by destruct (rectangular df).
  - by rewrite H.
Qed.

Lemma ingest_movies_cases w :
  ingest_movies w =
    match source "movies.csv" w with
    | inl e => Raised e w
    | inr df =>
        match movies_of_frame df with
        | inl e => Raised e w
        | inr rows => Returned tt (with_stg_movies rows (frame_len df) w)
        end
    end.
Proof.
  unfold ingest_movies, mbind at 1, io_bind. rewrite read_csv_source.
  destruct (source "movies.csv" w) as [e|df]; [done|].
  unfold movies_of_frame, with_stg_movies, to_sql_stg_movies. io_unfold.
  destruct (exn_bind _ _ str_strip (getitem df "title")) as [e|title]; [done|]. simpl.
  destruct (exn_bind _ _ astype_int (getitem df "year")) as [e|year]; [done|]. simpl.
  by destruct (exn_bind _ _ astype_int (getitem df "movie_id")) as [e|movie_id].
Qed.

Lemma ingest_ratings_cases w :
  ingest_ratings w =
    match source "ratings.csv" w with
    | inl e => Raised e w
    | inr df =>
        match ratings_of_frame df with
        | inl e => Raised e w
        | inr rows => Returned tt (with_stg_ratings rows (frame_len df) w)
        end
    end.
Proof.
  unfold ingest_ratings, mbind at 1, io_bind. rewrite read_csv_source.
  destruct (source "ratings.csv" w) as [e|df]; [done|].
  unfold ratings_of_frame, with_stg_ratings, to_sql_stg_ratings. io_unfold.
  destruct (exn_bind _ _ astype_float (getitem df "rating")) as [e|rating]; [done|]. simpl.
  by destruct (exn_bind _ _ astype_int (getitem df "movie_id")) as [e|movie_id].
Qed.

Lemma loaded_keeps w w' :
  keeps_sources w w' ->
  loaded_movies w' = loaded_movies w /\ loaded_ratings w' = loaded_ratings w.
Proof.
  intros H. unfold loaded_movies, loaded_ratings.
  by rewrite !(source_keeps _ w w' H).
Qed.

Lemma loaded_ratings_fs w w' : fs w' = fs w -> loaded_ratings w' = loaded_ratings w.
Proof.
  intros H. apply loaded_keeps, keeps_sources_same. by rewrite H.
Qed.

Lemma loaded_movies_fs w w' : fs w' = fs w -> loaded_movies w' = loaded_movies w.
Proof.
  intros H. apply loaded_keeps, keeps_sources_same. by rewrite H.
Qed.

Section RunFacts.

Variable render : list agg_row -> exn + string.

(** A task whose failed tries leave the world as it was fails every try. *)
Lemma attempt_movies n w :
  attempt n ingest_movies w =
    match loaded_movies w with
    | Some (rows, k) => (succeeded, with_stg_movies rows k w)
    | None => (failed, w)
    end.
Proof.
  unfold loaded_movies. induction n as [|n IH]; simpl; rewrite ingest_movies_cases.
  - destruct (source "movies.csv" w) as [e|df]; [done|].
    by destruct (movies_of_frame df).
  - destruct (source "movies.csv" w) as [e|df]; [done|].
    by destruct (movies_of_frame df).
Qed.

Lemma attempt_ratings n w :
  attempt n ingest_ratings w =
    match loaded_ratings w with
    | Some (rows, k) => (succeeded, with_stg_ratings rows k w)
    | None => (failed, w)
    end.
Proof.
  unfold loaded_ratings. induction n as [|n IH]; simpl; rewrite ingest_ratings_cases.
  - destruct (source "ratings.csv" w) as [e|df]; [done|].
    by destruct (ratings_of_frame df).
  - destruct (source "ratings.csv" w) as [e|df]; [done|].
    by destruct (ratings_of_frame df).
Qed.

End RunFacts.

Lemma merge_transform_cases w :
  merge_transform w =
    match stg_movies (db w), stg_ratings (db w) with
    | None, _ => Raised (ProgrammingError "stg_movies") w
    | Some _, None => Raised (ProgrammingError "stg_ratings") w
    | Some m, Some r =>
        let merged := merge_on_movie_id (map with_rating2 r) m in
        Returned tt (mkWorld (mkStore (Some m) (Some r) (Some merged)) (fs w)
                             (log w ++ [Merged_records (length merged)]))
    end.
Proof.
  unfold merge_transform, read_sql, to_sql_fact_movie_ratings. io_unfold.
  destruct (stg_movies (db w)) as [m|] eqn:Em; [|done].
  destruct (stg_ratings (db w)) as [r|] eqn:Er; [|done].
  simpl. by rewrite Em, Er.
Qed.

Lemma cleanup_intermediate_eq w :
  cleanup_intermediate w =
    Returned tt (mkWorld (mkStore None None (fact_movie_ratings (db w))) (fs w)
                         (log w ++ [Dropped_staging_tables])).
Proof. reflexivity. Qed.

Section Rerun.

Variable render : list agg_row -> exn + string.

(** A property every try of a task keeps is kept by the task instance. *)
Lemma attempt_rel (R : World -> World -> Prop) (body : io unit) :
  (forall w1 w2 w3, R w1 w2 -> R w2 w3 -> R w1 w3) ->
  (forall w, R w (world_of (body w))) ->
  forall n w, R w (attempt n body w).2.
Proof.
  intros Htrans Hbody. induction n as [|n IH]; intros w; simpl.
  - specialize (Hbody w). by destruct (body w).
  - specialize (Hbody w). destruct (body w) as [a w'|e w']; [done|].
    simpl in Hbody. by apply (Htrans w w').
Qed.

Arguments attempt : simpl never.

Lemma task_keeps_sources t w :
  keeps_sources w (world_of (python_callable render t w)).
Proof.
  destruct t; simpl.
  - rewrite ingest_movies_cases. apply keeps_sources_same.
    destruct (source "movies.csv" w) as [e|df]; [done|].
    by destruct (movies_of_frame df).
  - rewrite ingest_ratings_cases. apply keeps_sources_same.
    destruct (source "ratings.csv" w) as [e|df]; [done|].
    by destruct (ratings_of_frame df).
  - rewrite merge_transform_cases. apply keeps_sources_same.
    by destruct (stg_movies (db w)), (stg_ratings (db w)).
  - apply keeps_sources_same. by destruct (validate_read_only w) as [_ ->].
  - apply keeps_sources_same. by apply simple_analysis_frame.
  - by apply keeps_sources_same.
  - apply cleanup_files_keeps_sources.
Qed.

Lemma run_task_keeps_sources sw t : keeps_sources sw.2 (run_task render sw t).2.
Proof.
  unfold run_task. destruct (ready sw.1 t); simpl; [|apply keeps_sources_refl].
  apply attempt_rel; [apply keeps_sources_trans|apply task_keeps_sources].
Qed.

Lemma run_tasks_keep_sources ts : forall sw,
  keeps_sources sw.2 (fold_left (run_task render) ts sw).2.
Proof.
  induction ts as [|t ts IH]; intros sw; simpl; [apply keeps_sources_refl|].
  eapply keeps_sources_trans; [apply run_task_keeps_sources|apply IH].
Qed.

Lemma run_in_keeps_sources order w : keeps_sources w (run_in render order w).2.
Proof. apply (run_tasks_keep_sources order (fun _ => pending, w)). Qed.

Lemma task_same_fact t w :
  t ∈ after_merge_tasks -> same_fact w (world_of (python_callable render t w)).
Proof.
  intros Ht. unfold after_merge_tasks in Ht. unfold same_fact.
  repeat (apply elem_of_cons in Ht as [->|Ht]); simpl.
  - by destruct (validate_read_only w) as [-> _].
  - by destruct (simple_analysis_frame render w) as [-> _].
  - done.
  - by rewrite cleanup_files_db.
  - by apply not_elem_of_nil in Ht.
Qed.

Lemma run_tasks_same_fact ts : forall sw,
  (forall t, t ∈ ts -> t ∈ after_merge_tasks) ->
  same_fact sw.2 (fold_left (run_task render) ts sw).2.
Proof.
  induction ts as [|t ts IH]; intros sw Hts; simpl; [done|].
  unfold same_fact in *. rewrite IH by (intros u Hu; apply Hts; by right).
  unfold run_task. destruct (ready sw.1 t); simpl; [|done].
  apply (attempt_rel same_fact).
  - unfold same_fact. congruence.
  - intros w. apply task_same_fact, Hts. by left.
Qed.

Lemma run_task_ready sw t :
  ready sw.1 t = true ->
  run_task render sw t =
    (set_status t (attempt retries (python_callable render t) sw.2).1 sw.1,
     (attempt retries (python_callable render t) sw.2).2).
Proof. intros H. unfold run_task. by rewrite H. Qed.

Lemma run_task_blocked sw t :
  ready sw.1 t = false -> run_task render sw t = (set_status t skipped sw.1, sw.2).
Proof. intros H. unfold run_task. by rewrite H. Qed.

Lemma attempt_returned n (body : io unit) w a w' :
  body w = Returned a w' -> attempt n body w = (succeeded, w').
Proof. intros H. destruct n; unfold attempt; by rewrite H. Qed.

(** The fact relation after the loaders, in either order, and the merge. *)
Lemma loaders_merge_fact w :
  fact_movie_ratings
    (db (fold_left (run_task render) [t_movies; t_ratings; t_merge]
           (fun _ => pending, w)).2) =
    match loaded_movies w, loaded_ratings w with
    | Some (ms, _), Some (rs, _) => Some (merge_on_movie_id (map with_rating2 rs) ms)
    | _, _ => fact_movie_ratings (db w)
    end.
Proof.
  cbn [fold_left].
  rewrite (run_task_ready _ t_movies) by done. cbn [python_callable fst snd].
  rewrite attempt_movies.
  destruct (loaded_movies w) as [[ms km]|]; cbn [fst snd].
  - rewrite (run_task_ready _ t_ratings) by done. cbn [python_callable fst snd].
    rewrite attempt_ratings, (loaded_ratings_fs w) by done.
    destruct (loaded_ratings w) as [[rs kr]|]; cbn [fst snd].
    + rewrite (run_task_ready _ t_merge) by done. cbn [python_callable fst snd].
      erewrite attempt_returned; [|by rewrite merge_transform_cases]. done.
    + by rewrite (run_task_blocked _ t_merge).
  - rewrite (run_task_ready _ t_ratings) by done. cbn [python_callable fst snd].
    rewrite attempt_ratings.
    destruct (loaded_ratings w) as [[rs kr]|]; cbn [fst snd];
      by rewrite (run_task_blocked _ t_merge).
Qed.

Lemma loaders_merge_fact_swapped w :
  fact_movie_ratings
    (db (fold_left (run_task render) [t_ratings; t_movies; t_merge]
           (fun _ => pending, w)).2) =
    match loaded_movies w, loaded_ratings w with
    | Some (ms, _), Some (rs, _) => Some (merge_on_movie_id (map with_rating2 rs) ms)
    | _, _ => fact_movie_ratings (db w)
    end.
Proof.
  cbn [fold_left].
  rewrite (run_task_ready _ t_ratings) by done. cbn [python_callable fst snd].
  rewrite attempt_ratings.
  destruct (loaded_ratings w) as [[rs kr]|]; cbn [fst snd].
  - rewrite (run_task_ready _ t_movies) by done. cbn [python_callable fst snd].
    rewrite attempt_movies, (loaded_movies_fs w) by done.
    destruct (loaded_movies w) as [[ms km]|]; cbn [fst snd].
    + rewrite (run_task_ready _ t_merge) by done. cbn [python_callable fst snd].
      erewrite attempt_returned; [|by rewrite merge_transform_cases]. done.
    + by rewrite (run_task_blocked _ t_merge).
  - rewrite (run_task_ready _ t_movies) by done. cbn [python_callable fst snd].
    rewrite attempt_movies.
    destruct (loaded_movies w) as [[ms km]|]; cbn [fst snd];
      by rewrite (run_task_blocked _ t_merge).
Qed.

(** In every schedule, the fact relation a run leaves is the merge of the
    loaded datasets when both loaders accept their source, and the fact
    relation it found otherwise. *)
Lemma run_in_fact order w :
  order ∈ schedules ->
  fact_movie_ratings (db (run_in render order w).2) =
    match loaded_movies w, loaded_ratings w with
    | Some (ms, _), Some (rs, _) => Some (merge_on_movie_id (map with_rating2 rs) ms)
    | _, _ => fact_movie_ratings (db w)
    end.
Proof.
  intros Ho. unfold schedules in Ho.
  assert (Htail : forall a b t, t ∈ [t_validate; t_analyze; a; b] ->
            a ∈ after_merge_tasks -> b ∈ after_merge_tasks -> t ∈ after_merge_tasks).
  { intros a b t Ht Ha Hb.
    repeat (apply elem_of_cons in Ht as [->|Ht]); try done.
    - apply list_elem_of_In. simpl. tauto.
    - apply list_elem_of_In. simpl. tauto.
    - by apply not_elem_of_nil in Ht. }
  assert (Hdb : t_cleanup_db ∈ after_merge_tasks) by (apply list_elem_of_In; simpl; tauto).
  assert (Hfiles : t_cleanup_files ∈ after_merge_tasks)
    by (apply list_elem_of_In; simpl; tauto).
  repeat (apply elem_of_cons in Ho as [->|Ho]); [| | | |by apply not_elem_of_nil in Ho].
  all: unfold run_in;
    match goal with
    | |- context [fold_left ?f [?a; ?b; ?c; ?d; ?e; ?g; ?h] ?x] =>
        change (fold_left f [a; b; c; d; e; g; h] x)
          with (fold_left f [d; e; g; h] (fold_left f [a; b; c] x))
    end.
  all: rewrite run_tasks_same_fact by (intros t Ht; by apply (Htail _ _ t Ht)).
  - apply loaders_merge_fact.
  - apply loaders_merge_fact.
  - apply loaders_merge_fact_swapped.
  - apply loaders_merge_fact_swapped.
Qed.

(** Whatever the sources hold and in whatever order the tasks are taken, a
    second run leaves the fact relation as the first run left it. *)
Lemma rerun_same_fact o1 o2 w :
  o1 ∈ schedules -> o2 ∈ schedules ->
  fact_movie_ratings (db (run_in render o2 (run_in render o1 w).2).2)
  = fact_movie_ratings (db (run_in render o1 w).2).
Proof.
  intros H1 H2. rewrite (run_in_fact o2 _ H2).
  destruct (loaded_keeps w _ (run_in_keeps_sources o1 w)) as [-> ->].
  rewrite (run_in_fact o1 w H1).
  by destruct (loaded_movies w) as [[ms km]|], (loaded_ratings w) as [[rs kr]|].
Qed.

End Rerun.

Lemma ingest_movies_loaded w wm :
  ingest_movies w = Returned tt wm ->
  exists ms k, loaded_movies w = Some (ms, k) /\ stg_movies (db wm) = Some ms.
Proof.
  rewrite ingest_movies_cases. unfold loaded_movies.
  destruct (source "movies.csv" w) as [e|df]; [done|].
  destruct (movies_of_frame df) as [e|ms]; [done|].
  intros [= <-]. by exists ms, (frame_len df).
Qed.

Lemma ingest_ratings_loaded w wr :
  ingest_ratings w = Returned tt wr ->
  exists rs k, loaded_ratings w = Some (rs, k) /\ stg_ratings (db wr) = Some rs.
Proof.
  rewrite ingest_ratings_cases. unfold loaded_ratings.
  destruct (source "ratings.csv" w) as [e|df]; [done|].
  destruct (ratings_of_frame df) as [e|rs]; [done|].
  intros [= <-]. by exists rs, (frame_len df).
Qed.

(** C2: when both loaders accept the sources, the fact relation a run
    leaves is the merge of the two loaded datasets, whatever the store held
    before and in whichever order the independent tasks are taken; a second
    run on the world the first one left, the sources unchanged, leaves the
    same fact relation, and the analysis query returns the same rows after
    either run. *)
Theorem C2_rerun_idempotent (render : list agg_row -> exn + string)
    (o1 o2 : list task) (w wm wr : World) :
  o1 ∈ schedules ->
  o2 ∈ schedules ->
  ingest_movies w = Returned tt wm ->
  ingest_ratings w = Returned tt wr ->
  let w1 := (run_in render o1 w).2 in
  let w2 := (run_in render o2 w1).2 in
  exists ms rs,
    stg_movies (db wm) = Some ms
    /\ stg_ratings (db wr) = Some rs
    /\ fact_movie_ratings (db w1) = Some (merge_on_movie_id (map with_rating2 rs) ms)
    /\ fact_movie_ratings (db w2) = fact_movie_ratings (db w1)
    /\ read_sql_q w1 =
         Returned (analysis_query (merge_on_movie_id (map with_rating2 rs) ms)) w1
    /\ read_sql_q w2 =
         Returned (analysis_query (merge_on_movie_id (map with_rating2 rs) ms)) w2.
Proof.
  intros Ho1 Ho2 Hm Hr w1 w2.
  destruct (ingest_movies_loaded _ _ Hm) as (ms & km & Lm & Sm).
  destruct (ingest_ratings_loaded _ _ Hr) as (rs & kr & Lr & Sr).
  assert (F1 : fact_movie_ratings (db w1)
               = Some (merge_on_movie_id (map with_rating2 rs) ms)).
  { subst w1. by rewrite (run_in_fact render o1 w Ho1), Lm, Lr. }
  assert (F2 : fact_movie_ratings (db w2) = fact_movie_ratings (db w1)).
  { subst w2 w1. by apply rerun_same_fact. }
  exists ms, rs. repeat split; try done.
  - unfold read_sql_q. by rewrite (bind_returned _ _ _ _ _ (read_sql_some _ _ _ _ F1)).
  - rewrite F1 in F2. unfold read_sql_q.
    by rewrite (bind_returned _ _ _ _ _ (read_sql_some _ _ _ _ F2)).
Qed.

(** ** The properties on the example worlds *)

Lemma C2_rerun_idempotent_witness :
  let w1 := (run_in no_display all_tasks example_world).2 in
  let w2 := (run_in no_display swapped_schedule w1).2 in
  exists ms rs,
    stg_movies (db (world_of (ingest_movies example_world))) = Some ms
    /\ stg_ratings (db (world_of (ingest_ratings example_world))) = Some rs
    /\ fact_movie_ratings (db w1) = Some (merge_on_movie_id (map with_rating2 rs) ms)
    /\ fact_movie_ratings (db w2) = fact_movie_ratings (db w1)
    /\ read_sql_q w1 =
         Returned (analysis_query (merge_on_movie_id (map with_rating2 rs) ms)) w1
    /\ read_sql_q w2 =
         Returned (analysis_query (merge_on_movie_id (map with_rating2 rs) ms)) w2.
Proof.
  apply (C2_rerun_idempotent no_display all_tasks swapped_schedule example_world
           (world_of (ingest_movies example_world))
           (world_of (ingest_ratings example_world))).
  - compute_done.
  - compute_done.
  - vm_compute. reflexivity.
  - vm_compute. reflexivity.
Defined.

Lemma C4_validate_rowcount_witness :
  fact_movie_ratings (db fact_world) = Some example_facts
  /\ returned (validate_rowcount_py fact_world) = true
  /\ db (world_of (validate_rowcount_py fact_world)) = db fact_world.
Proof.
  split; [reflexivity|].
  destruct (C4_validate_rowcount fact_world example_facts eq_refl)
    as (_ & _ & Hret & Hdb & _).
  split; [apply Hret; simpl; lia|exact Hdb].
Defined.

Lemma C5_analysis_query_witness :
  fact_movie_ratings (db fact_world) = Some example_facts
  /\ read_sql_q fact_world = Returned (analysis_query example_facts) fact_world
  /\ NoDup (map a_title (analysis_query example_facts))
  /\ StronglySorted desc_order (analysis_query example_facts).
Proof.
  split; [reflexivity|].
  destruct (C5_analysis_query no_display fact_world example_facts eq_refl)
    as (Hq & Hnd & _ & _ & Hs & _).
  split; [exact Hq|]. split; [exact Hnd|exact Hs].
Defined.

Lemma C6_plot_failure_swallowed_witness :
  fact_movie_ratings (db fact_world) = Some example_facts
  /\ example_facts <> []
  /\ primary_writable fact_world = true
  /\ exists w',
       simple_analysis no_display fact_world = Returned tt w'
       /\ db w' = db fact_world
       /\ (exists d', fs w' !! OUTPUT_DIR = Some (Dir d')
             /\ d' !! "avg_ratings.csv"
                = Some (File (Csv (agg_frame (analysis_query example_facts)))))
       /\ log w' =
            (log fact_world
               ++ [Analysis_row_count (length (analysis_query example_facts));
                   Wrote_full_CSV (join OUTPUT_DIR "avg_ratings.csv");
                   Plotting_skipped (RuntimeError "no display")])%list.
Proof.
  split; [reflexivity|]. split; [discriminate|]. split; [reflexivity|].
  apply (C6_plot_failure_swallowed no_display fact_world example_facts);
    [reflexivity|discriminate|reflexivity].
Defined.

Lemma C9_output_dir_created_witness :
  fs fact_world !! OUTPUT_DIR = None
  /\ (exists d',
        fs (world_of (simple_analysis no_display fact_world)) !! OUTPUT_DIR = Some (Dir d'))
  /\ returned (simple_analysis no_display fact_world) = true.
Proof.
  split; [reflexivity|].
  destruct (C9_output_dir_created no_display fact_world eq_refl) as (Hdir & _ & Hret).
  split; [exact Hdir|].
  destruct (Hret example_facts eq_refl) as (w' & d' & -> & _); [discriminate|].
  reflexivity.
Defined.

(** ** The sequential run is a run of the orchestrator *)

Lemma attempt_status n (body : io unit) w :
  (attempt n body w).1 = succeeded \/ (attempt n body w).1 = failed.
Proof.
  revert w. induction n as [|n IH]; intros w; simpl.
  - destruct (body w); simpl; tauto.
  - destruct (body w) as [a w'|e w']; simpl; [tauto|apply IH].
Qed.

(** Settles the innermost task of a [run_dag] that is still folded: it is
    skipped, or it ran and ended succeeded or failed. *)
Ltac next_task render :=
  match goal with
  | |- context [run_task render ?sw ?t] =>
      first
        [ rewrite (run_task_blocked render sw t) by reflexivity
        | rewrite (run_task_ready render sw t) by reflexivity;
          cbn [fst snd];
          let H := fresh "H" in
          destruct (attempt_status retries (python_callable render t) sw.2) as [H|H];
          cbn [fst snd] in H; rewrite H ]
  end; cbn [fst snd].

(** In every schedule the statuses a run ends with are those of a finished
    run of the orchestrator: taking the tasks one after the other is one of
    its interleavings. *)
Lemma run_in_is_a_run render order w :
  order ∈ schedules ->
  exists evs r,
    Orchestrator.exec evs Orchestrator.init = Some r
    /\ Orchestrator.terminal r = true
    /\ forall t, Orchestrator.state (r t) = (run_in render order w).1 t.
Proof.
  intros Ho.
  exists (Orchestrator.trace_of (run_in render order w).1),
         (Orchestrator.run_of (Orchestrator.trace_of (run_in render order w).1)).
  unfold schedules in Ho.
  repeat (apply elem_of_cons in Ho as [->|Ho]); [| | | |by apply not_elem_of_nil in Ho].
  all: unfold run_in; cbn [fold_left].
  all: do 7 next_task render.
  all: split; [vm_compute; reflexivity|split; [vm_compute; reflexivity|]].
  all: intros t; destruct t; vm_compute; reflexivity.
Qed.

(** When a loader rejects its source, [run_dag] skips every task downstream
    of the loaders, and the fact relation and the file system stay as they
    were. *)
Lemma run_dag_failed_loader render w :
  loaded_movies w = None \/ loaded_ratings w = None ->
  (forall t, t ∈ Orchestrator.downstream_of_loaders -> (run_dag render w).1 t = skipped)
  /\ fact_movie_ratings (db (run_dag render w).2) = fact_movie_ratings (db w)
  /\ fs (run_dag render w).2 = fs w.
Proof.
  intros Hfail. unfold run_dag, run_in. cbn [fold_left all_tasks].
  rewrite (run_task_ready render _ t_movies) by done. cbn [python_callable fst snd].
  rewrite attempt_movies.
  destruct (loaded_movies w) as [[ms km]|] eqn:Lm; cbn [fst snd].
  - destruct Hfail as [?|Lr]; [done|].
    rewrite (run_task_ready render _ t_ratings) by done. cbn [python_callable fst snd].
    rewrite attempt_ratings, (loaded_ratings_fs w), Lr by done. cbn [fst snd].
    do 5 (rewrite run_task_blocked by reflexivity; cbn [fst snd]).
    split; [|done]. intros t Ht. unfold Orchestrator.downstream_of_loaders in Ht.
    repeat (apply elem_of_cons in Ht as [->|Ht]; [reflexivity|]).
    by apply not_elem_of_nil in Ht.
  - rewrite (run_task_ready render _ t_ratings) by done. cbn [python_callable fst snd].
    rewrite attempt_ratings.
    destruct (loaded_ratings w) as [[rs kr]|]; cbn [fst snd].
    all: do 5 (rewrite run_task_blocked by reflexivity; cbn [fst snd]).
    all: split; [|done]; intros t Ht; unfold Orchestrator.downstream_of_loaders in Ht.
    all: repeat (apply elem_of_cons in Ht as [->|Ht]; [reflexivity|]).
    all: by apply not_elem_of_nil in Ht.
Qed.

(** * Further properties of the callables *)

(** ** The loaders *)

Lemma getitem_len_aux df col c n :
  forallb (fun kc : string * column => Nat.eqb (column_len kc.2) n) df = true ->
  getitem df col = inr c -> column_len c = n.
Proof.
  induction df as [|[k c'] df IH]; simpl; [done|].
  intros H. apply andb_true_iff in H as [Hc Hdf].
  destruct (String.eqb k col).
  - intros [= <-]. by apply Nat.eqb_eq.
  - by apply IH.
Qed.

(** In a rectangular frame every column has [len(df)] cells. *)
Lemma getitem_len df col c :
  rectangular df = true -> getitem df col = inr c -> column_len c = frame_len df.
Proof. apply getitem_len_aux. Qed.

Lemma source_rectangular name w df : source name w = inr df -> rectangular df = true.
Proof.
  unfold source, read_csv, opendir. io_unfold.
  destruct (fs w !! DATA_DIR) as [[c|d]|]; try done.
  destruct (d !! name) as [[[s|df']|x]|]; try done.
  destruct (rectangular df') eqn:R; [|done]. by intros [= <-].
Qed.

Lemma all_some_length {A} (xs : list (option A)) ys :
  all_some xs = Some ys -> length ys = length xs.
Proof.
  revert ys. induction xs as [|[x|] xs IH]; simpl; intros ys; [by intros [= <-]| |done].
  destruct (all_some xs) as [zs|]; [|done]. intros [= <-]. simpl. by rewrite (IH zs).
Qed.

Lemma str_strip_len c ts : str_strip c = inr ts -> length ts = column_len c.
Proof.
  destruct c; simpl; try done. intros [= <-]. by rewrite length_fmap.
Qed.

Lemma astype_int_len c zs : astype_int c = inr zs -> length zs = column_len c.
Proof.
  destruct c as [xs|xs|xs]; simpl; [by intros [= <-]| |done].
  destruct (all_some xs) as [ys|] eqn:E; [|done]. intros [= <-].
  rewrite length_map. by apply all_some_length.
Qed.

Lemma astype_float_len c qs : astype_float c = inr qs -> length qs = column_len c.
Proof.
  destruct c as [xs|xs|xs]; simpl; [|by intros [= <-]|done].
  intros [= <-]. by rewrite length_map.
Qed.

(** A coerced column of a rectangular frame has [len(df)] cells. *)
Lemma coerced_len {A} df col (f : column -> exn + list A) xs :
  (forall c ys, f c = inr ys -> length ys = column_len c) ->
  rectangular df = true ->
  (getitem df col ≫= f) = inr xs -> length xs = frame_len df.
Proof.
  intros Hf R. unfold mbind, exn_bind.
  destruct (getitem df col) as [e|c] eqn:G; [done|].
  intros H. rewrite (Hf c xs H). by apply getitem_len with col.
Qed.

Lemma zip_movies_spec ids titles years :
  length titles = length ids -> length years = length ids ->
  map m_movie_id (zip_movies ids titles years) = ids
  /\ map m_title (zip_movies ids titles years) = titles
  /\ map m_year (zip_movies ids titles years) = years.
Proof.
  revert titles years. induction ids as [|i ids IH]; intros [|t titles] [|y years];
    simpl; try done.
  intros [= Ht] [= Hy]. destruct (IH titles years Ht Hy) as (-> & -> & ->). done.
Qed.

Lemma zip_ratings_spec ids rs :
  length rs = length ids ->
  map r_movie_id (zip_ratings ids rs) = ids /\ map r_rating (zip_ratings ids rs) = rs.
Proof.
  revert rs. induction ids as [|i ids IH]; intros [|r rs]; simpl; try done.
  intros [= Hr]. destruct (IH rs Hr) as (-> & ->). done.
Qed.

(** *** [str.strip] *)

Lemma lstrip_clean s : starts_with_space (lstrip s) = false.
Proof.
  induction s as [|a s IH]; simpl; [done|].
  destruct (isspace a) eqn:E; [done|]. simpl. exact E.
Qed.

Lemma rstrip_clean s : ends_with_space (rstrip s) = false.
Proof.
  induction s as [|a s IH]; simpl; [done|].
  destruct (rstrip s) as [|b t]; simpl.
  - by destruct (isspace a) eqn:E.
  - exact IH.
Qed.

Lemma rstrip_keeps_start s :
  starts_with_space s = false -> starts_with_space (rstrip s) = false.
Proof.
  destruct s as [|a s]; simpl; [done|]. intros E.
  destruct (rstrip s); simpl; [by rewrite E|done].
Qed.

Lemma append_cons a (s t : string) : String a s ++ t = String a (s ++ t).
Proof. reflexivity. Qed.

Lemma lstrip_split s : exists l, s = l ++ lstrip s /\ blank l = true.
Proof.
  induction s as [|a s (l & Hl & Bl)]; simpl.
  - by exists "".
  - destruct (isspace a) eqn:E.
    + exists (String a l). rewrite append_cons, <- Hl. simpl. by rewrite E, Bl.
    + by exists "".
Qed.

Lemma rstrip_split s : exists r, s = rstrip s ++ r /\ blank r = true.
Proof.
  induction s as [|a s (r & Hr & Br)]; simpl.
  - by exists "".
  - destruct (rstrip s) as [|b t] eqn:E.
    + change (s = r) in Hr. subst r. destruct (isspace a) eqn:Ea.
      * exists (String a s). simpl. by rewrite Ea, Br.
      * by exists s.
    + exists r. rewrite append_cons, <- Hr. done.
Qed.

(** [strip] removes white space at both ends and nothing else. *)
Lemma strip_spec s :
  exists l r, s = l ++ strip s ++ r
    /\ blank l = true /\ blank r = true
    /\ starts_with_space (strip s) = false
    /\ ends_with_space (strip s) = false.
Proof.
  destruct (lstrip_split s) as (l & Hl & Bl).
  destruct (rstrip_split (lstrip s)) as (r & Hr & Br).
  exists l, r. unfold strip. repeat split; try done.
  - by rewrite <- Hr.
  - apply rstrip_keeps_start, lstrip_clean.
  - apply rstrip_clean.
Qed.

(** *** What the loaders stage *)

Lemma source_csv name w d df :
  fs w !! DATA_DIR = Some (Dir d) ->
  d !! name = Some (File (Csv df)) ->
  rectangular df = true ->
  source name w = inr df.
Proof.
  intros Hd Hf R. unfold source, read_csv, opendir. io_unfold.
  by rewrite Hd, Hf, R.
Qed.

(** X1: when movies.csv is a table whose title, year and movie_id columns
    coerce, ingest_movies returns; stg_movies then holds one row per row of
    the table, with the coerced cells of the three columns in the order of
    the table; the printed count is the number of rows written, and the
    other relations and the file system are as before. *)
Theorem X1_ingest_movies_staged (w : World) (d : gmap string node) (df : frame)
    (ts : list (option string)) (ys ids : list Z) :
  fs w !! DATA_DIR = Some (Dir d) ->
  d !! "movies.csv" = Some (File (Csv df)) ->
  rectangular df = true ->
  (getitem df "title" ≫= str_strip) = inr ts ->
  (getitem df "year" ≫= astype_int) = inr ys ->
  (getitem df "movie_id" ≫= astype_int) = inr ids ->
  exists rows,
    ingest_movies w =
      Returned tt
        (mkWorld (mkStore (Some rows) (stg_ratings (db w)) (fact_movie_ratings (db w)))
                 (fs w) (log w ++ [Movies_ingested (length rows)]))
    /\ map m_movie_id rows = ids
    /\ map m_title rows = ts
    /\ map m_year rows = ys
    /\ length rows = frame_len df.
Proof.
  intros Hd Hf R Ht Hy Hi.
  pose proof (coerced_len df "title" str_strip ts str_strip_len R Ht) as Lt.
  pose proof (coerced_len df "year" astype_int ys astype_int_len R Hy) as Ly.
  pose proof (coerced_len df "movie_id" astype_int ids astype_int_len R Hi) as Li.
  destruct (zip_movies_spec ids ts ys) as (Mi & Mt & My); [congruence..|].
  assert (Hlen : length (zip_movies ids ts ys) = frame_len df).
  { rewrite <- Li, <- (length_map m_movie_id). by rewrite Mi. }
  exists (zip_movies ids ts ys). split; [|done].
  rewrite ingest_movies_cases, (source_csv _ _ _ _ Hd Hf R).
  unfold movies_of_frame. rewrite Ht, Hy, Hi. simpl.
  unfold with_stg_movies. by rewrite Hlen.
Qed.

Lemma X1_ingest_movies_staged_witness :
  exists rows,
    ingest_movies example_world =
      Returned tt
        (mkWorld (mkStore (Some rows) (stg_ratings (db example_world))
                          (fact_movie_ratings (db example_world)))
                 (fs example_world) (log example_world ++ [Movies_ingested (length rows)]))
    /\ map m_movie_id rows = [1%Z]
    /\ map m_title rows = [Some "A"]
    /\ map m_year rows = [2000%Z]
    /\ length rows = frame_len movies_csv.
Proof.
  apply (X1_ingest_movies_staged example_world example_data movies_csv);
    vm_compute; reflexivity.
Defined.

(** X2: when ratings.csv is a table whose rating and movie_id columns
    coerce, ingest_ratings returns; stg_ratings then holds one row per row
    of the table, with the coerced cells in the order of the table (a
    missing rating stays missing); the printed count is the number of rows
    written, and the other relations and the file system are as before. *)
Theorem X2_ingest_ratings_staged (w : World) (d : gmap string node) (df : frame)
    (rs : list (option Q)) (ids : list Z) :
  fs w !! DATA_DIR = Some (Dir d) ->
  d !! "ratings.csv" = Some (File (Csv df)) ->
  rectangular df = true ->
  (getitem df "rating" ≫= astype_float) = inr rs ->
  (getitem df "movie_id" ≫= astype_int) = inr ids ->
  exists rows,
    ingest_ratings w =
      Returned tt
        (mkWorld (mkStore (stg_movies (db w)) (Some rows) (fact_movie_ratings (db w)))
                 (fs w) (log w ++ [Ratings_ingested (length rows)]))
    /\ map r_movie_id rows = ids
    /\ map r_rating rows = rs
    /\ length rows = frame_len df.
Proof.
  intros Hd Hf R Hr Hi.
  pose proof (coerced_len df "rating" astype_float rs astype_float_len R Hr) as Lr.
  pose proof (coerced_len df "movie_id" astype_int ids astype_int_len R Hi) as Li.
  destruct (zip_ratings_spec ids rs) as (Mi & Mr); [congruence|].
  assert (Hlen : length (zip_ratings ids rs) = frame_len df).
  { rewrite <- Li, <- (length_map r_movie_id). by rewrite Mi. }
  exists (zip_ratings ids rs). split; [|done].
  rewrite ingest_ratings_cases, (source_csv _ _ _ _ Hd Hf R).
  unfold ratings_of_frame. rewrite Hr, Hi. simpl.
  unfold with_stg_ratings. by rewrite Hlen.
Qed.

Lemma X2_ingest_ratings_staged_witness :
  exists rows,
    ingest_ratings example_world =
      Returned tt
        (mkWorld (mkStore (stg_movies (db example_world)) (Some rows)
                          (fact_movie_ratings (db example_world)))
                 (fs example_world) (log example_world ++ [Ratings_ingested (length rows)]))
    /\ map r_movie_id rows = [1%Z; 1%Z]
    /\ map r_rating rows = [Some 4%Q; Some 2%Q]
    /\ length rows = frame_len ratings_csv.
Proof.
  apply (X2_ingest_ratings_staged example_world example_data ratings_csv);
    vm_compute; reflexivity.
Defined.

Lemma zip_movies_title ids titles years m :
  m ∈ zip_movies ids titles years -> m_title m ∈ titles.
Proof.
  revert titles years. induction ids as [|i ids IH]; intros [|t titles] [|y years];
    simpl; intros H; try by apply not_elem_of_nil in H.
  apply elem_of_cons in H as [->|H]; [by left|]. right. by apply (IH titles years).
Qed.

(** X3: every title ingest_movies writes to stg_movies is a title of the
    title column of movies.csv without its leading and trailing white space:
    it neither begins nor ends with white space, and the cell it comes from
    is that title between two runs of white space. *)
Theorem X3_ingest_movies_titles_stripped (w w' : World) :
  ingest_movies w = Returned tt w' ->
  exists df cells rows,
    source "movies.csv" w = inr df
    /\ getitem df "title" = inr (ObjCol cells)
    /\ stg_movies (db w') = Some rows
    /\ forall m t, m ∈ rows -> m_title m = Some t ->
         starts_with_space t = false /\ ends_with_space t = false
         /\ exists s l r, Some s ∈ cells /\ s = l ++ t ++ r
              /\ blank l = true /\ blank r = true.
Proof.
  rewrite ingest_movies_cases.
  destruct (source "movies.csv" w) as [e|df] eqn:S; [done|].
  unfold movies_of_frame, mbind, exn_bind.
  destruct (getitem df "title") as [e|c] eqn:G; [done|].
  destruct c as [xs|xs|cells]; simpl; [done|done|].
  destruct (getitem df "year") as [e|cy]; [done|].
  destruct (astype_int cy) as [e|ys]; [done|].
  destruct (getitem df "movie_id") as [e|ci]; [done|].
  destruct (astype_int ci) as [e|ids]; [done|].
  intros [= <-].
  exists df, cells,
    (zip_movies ids (fmap (M:=list) (fmap (M:=option) strip) cells) ys).
  split; [done|]. split; [done|]. split; [done|].
  intros m t Hm Ht. apply zip_movies_title in Hm. rewrite Ht in Hm.
  apply list_elem_of_fmap in Hm as ([s|] & E & Hs); [|done].
  injection E as ->.
  destruct (strip_spec s) as (l & r & E & Bl & Br & Cs & Ce).
  split; [done|]. split; [done|]. by exists s, l, r.
Qed.

Lemma X3_ingest_movies_titles_stripped_witness :
  exists df cells rows,
    source "movies.csv" example_world = inr df
    /\ getitem df "title" = inr (ObjCol cells)
    /\ stg_movies (db (world_of (ingest_movies example_world))) = Some rows
    /\ forall m t, m ∈ rows -> m_title m = Some t ->
         starts_with_space t = false /\ ends_with_space t = false
         /\ exists s l r, Some s ∈ cells /\ s = l ++ t ++ r
              /\ blank l = true /\ blank r = true.
Proof.
  apply (X3_ingest_movies_titles_stripped example_world). vm_compute. reflexivity.
Defined.

(** *** A failed task *)

(** X4: when a loader, the merge or the validation raises, it leaves the
    world (store, file system and output) exactly as it found it: none of
    them writes anything before the statement that can fail. *)
Theorem X4_failure_leaves_world (w : World) :
  (forall e w', ingest_movies w = Raised e w' -> w' = w)
  /\ (forall e w', ingest_ratings w = Raised e w' -> w' = w)
  /\ (forall e w', merge_transform w = Raised e w' -> w' = w)
  /\ (forall e w', validate_rowcount_py w = Raised e w' -> w' = w).
Proof.
  split; [|split; [|split]]; intros e w'.
  - rewrite ingest_movies_cases.
    destruct (source "movies.csv" w) as [e'|df]; [by intros [= _ <-]|].
    destruct (movies_of_frame df); [by intros [= _ <-]|done].
  - rewrite ingest_ratings_cases.
    destruct (source "ratings.csv" w) as [e'|df]; [by intros [= _ <-]|].
    destruct (ratings_of_frame df); [by intros [= _ <-]|done].
  - rewrite merge_transform_cases.
    destruct (stg_movies (db w)); [|by intros [= _ <-]].
    destruct (stg_ratings (db w)); [done|by intros [= _ <-]].
  - unfold validate_rowcount_py, select_count, read_sql. io_unfold.
    destruct (fact_movie_ratings (db w)) as [rows|]; [|by intros [= _ <-]].
    destruct (Nat.eqb (length rows) 0); [by intros [= _ <-]|done].
Qed.

(** *** The two loaders side by side *)

Lemma ingest_movies_world w :
  world_of (ingest_movies w) =
    match loaded_movies w with Some (rows, k) => with_stg_movies rows k w | None => w end
  /\ returned (ingest_movies w) =
       match loaded_movies w with Some _ => true | None => false end.
Proof.
  rewrite ingest_movies_cases. unfold loaded_movies.
  destruct (source "movies.csv" w) as [e|df]; [done|].
  by destruct (movies_of_frame df).
Qed.

Lemma ingest_ratings_world w :
  world_of (ingest_ratings w) =
    match loaded_ratings w with Some (rows, k) => with_stg_ratings rows k w | None => w end
  /\ returned (ingest_ratings w) =
       match loaded_ratings w with Some _ => true | None => false end.
Proof.
  rewrite ingest_ratings_cases. unfold loaded_ratings.
  destruct (source "ratings.csv" w) as [e|df]; [done|].
  by destruct (ratings_of_frame df).
Qed.

Lemma ingest_movies_fs w : fs (world_of (ingest_movies w)) = fs w.
Proof.
  destruct (ingest_movies_world w) as [-> _].
  by destruct (loaded_movies w) as [[rows k]|].
Qed.

Lemma ingest_ratings_fs w : fs (world_of (ingest_ratings w)) = fs w.
Proof.
  destruct (ingest_ratings_world w) as [-> _].
  by destruct (loaded_ratings w) as [[rows k]|].
Qed.

(** X5: the two loaders do not interfere: whether one returns or raises
    does not depend on the other having run before it, and running them in
    either order leaves the same store and the same file system. *)
Theorem X5_loaders_commute (w : World) :
  returned (ingest_ratings (world_of (ingest_movies w))) = returned (ingest_ratings w)
  /\ returned (ingest_movies (world_of (ingest_ratings w))) = returned (ingest_movies w)
  /\ db (world_of (ingest_ratings (world_of (ingest_movies w))))
     = db (world_of (ingest_movies (world_of (ingest_ratings w))))
  /\ fs (world_of (ingest_ratings (world_of (ingest_movies w))))
     = fs (world_of (ingest_movies (world_of (ingest_ratings w)))).
Proof.
  pose proof (loaded_ratings_fs w _ (ingest_movies_fs w)) as Lr.
  pose proof (loaded_movies_fs w _ (ingest_ratings_fs w)) as Lm.
  destruct (ingest_ratings_world (world_of (ingest_movies w))) as [Wr Rr].
  destruct (ingest_movies_world (world_of (ingest_ratings w))) as [Wm Rm].
  destruct (ingest_ratings_world w) as [Wr0 Rr0].
  destruct (ingest_movies_world w) as [Wm0 Rm0].
  rewrite Rr, Rm, Rr0, Rm0, Lr, Lm. split; [done|]. split; [done|].
  rewrite Wr, Wm, Lr, Lm, Wr0, Wm0.
  by destruct (loaded_movies w) as [[ms km]|], (loaded_ratings w) as [[rs kr]|].
Qed.

(** ** The merge *)

Lemma merge_elem_of (r : list rating) (m : list movie) (f : fact) :
  f ∈ merge_on_movie_id (map with_rating2 r) m <->
  exists x y, x ∈ r /\ y ∈ m /\ m_movie_id y = r_movie_id x
    /\ f = Fact (r_movie_id x) (r_rating x)
             (fmap (M:=option) (fun q => q ^ 2)%Q (r_rating x)) (m_title y) (m_year y).
Proof.
  unfold merge_on_movie_id. rewrite list_elem_of_In, in_flat_map. split.
  - intros (s & Hs & Hf). apply in_map_iff in Hs as (x & <- & Hx).
    apply in_map_iff in Hf as (y & <- & Hy). apply filter_In in Hy as [Hy E].
    apply Z.eqb_eq in E. exists x, y. rewrite !list_elem_of_In. by repeat split.
  - intros (x & y & Hx & Hy & E & ->). exists (with_rating2 x).
    apply list_elem_of_In in Hx. apply list_elem_of_In in Hy.
    split; [by apply in_map|].
    apply in_map_iff. exists y. split; [done|]. apply filter_In. split; [done|].
    by apply Z.eqb_eq.
Qed.

(** X6: over two existing staging relations merge_transform returns, and
    the fact relation it writes is the inner join on movie_id: its rows are
    exactly the pairs of a rating row and a movie row with the same
    movie_id, carrying the rating, its square as rating2 (missing when the
    rating is missing, and never negative), and the title and year of the
    movie; the staging relations and the file system are as before. *)
Theorem X6_merge_is_inner_join (w : World) (m : list movie) (r : list rating) :
  stg_movies (db w) = Some m ->
  stg_ratings (db w) = Some r ->
  exists rows,
    merge_transform w =
      Returned tt (mkWorld (mkStore (Some m) (Some r) (Some rows)) (fs w)
                           (log w ++ [Merged_records (length rows)]))
    /\ (forall f, f ∈ rows <->
          exists x y, x ∈ r /\ y ∈ m /\ m_movie_id y = r_movie_id x
            /\ f = Fact (r_movie_id x) (r_rating x)
                     (fmap (M:=option) (fun q => q ^ 2)%Q (r_rating x))
                     (m_title y) (m_year y))
    /\ (forall f q, f ∈ rows -> f_rating2 f = Some q -> (0 <= q)%Q).
Proof.
  intros Hm Hr. exists (merge_on_movie_id (map with_rating2 r) m).
  split; [by rewrite merge_transform_cases, Hm, Hr|]. split; [apply merge_elem_of|].
  intros f q Hf Hq. apply merge_elem_of in Hf as (x & y & _ & _ & _ & ->).
  simpl in Hq. destruct (r_rating x) as [p|]; [|done]. injection Hq as <-.
  simpl. unfold Qle. simpl. nia.
Qed.

Lemma X6_merge_is_inner_join_witness :
  exists rows,
    merge_transform c1_world =
      Returned tt
        (mkWorld (mkStore (Some [Movie 1 (Some "A") 2000])
                          (Some [Rating 1 (Some 4%Q); Rating 1 (Some 2%Q)]) (Some rows))
                 (fs c1_world) (log c1_world ++ [Merged_records (length rows)]))
    /\ (forall f, f ∈ rows <->
          exists x y, x ∈ [Rating 1 (Some 4%Q); Rating 1 (Some 2%Q)]
            /\ y ∈ [Movie 1 (Some "A") 2000] /\ m_movie_id y = r_movie_id x
            /\ f = Fact (r_movie_id x) (r_rating x)
                     (fmap (M:=option) (fun q => q ^ 2)%Q (r_rating x))
                     (m_title y) (m_year y))
    /\ (forall f q, f ∈ rows -> f_rating2 f = Some q -> (0 <= q)%Q).
Proof. apply (X6_merge_is_inner_join c1_world); reflexivity. Defined.

(** *** The order of the staged rows *)

Lemma filter_Permutation {A} (p : A -> bool) l l' :
  l ≡ₚ l' -> List.filter p l ≡ₚ List.filter p l'.
Proof.
  induction 1 as [|x l l' _ IH|x y l|l1 l2 l3 _ IH1 _ IH2]; simpl.
  - done.
  - destruct (p x); [by constructor|done].
  - destruct (p x), (p y); try done. apply perm_swap.
  - by etransitivity.
Qed.

Lemma flat_map_pointwise {A B} (f g : A -> list B) l :
  (forall x, f x ≡ₚ g x) -> flat_map f l ≡ₚ flat_map g l.
Proof.
  intros Hfg. induction l as [|x l IH]; simpl; [done|]. by rewrite (Hfg x), IH.
Qed.

Lemma flat_map_Permutation {A B} (f g : A -> list B) l l' :
  (forall x, f x ≡ₚ g x) -> l ≡ₚ l' -> flat_map f l ≡ₚ flat_map g l'.
Proof.
  intros Hfg Hl. rewrite (flat_map_pointwise f g l Hfg).
  induction Hl as [|x l l' _ IH|x y l|l1 l2 l3 _ IH1 _ IH2]; simpl.
  - done.
  - by rewrite IH.
  - rewrite !app_assoc. f_equiv. apply Permutation_app_comm.
  - by etransitivity.
Qed.

Lemma merge_Permutation r r' m m' :
  r ≡ₚ r' -> m ≡ₚ m' ->
  merge_on_movie_id (map with_rating2 r) m ≡ₚ merge_on_movie_id (map with_rating2 r') m'.
Proof.
  intros Hr Hm. unfold merge_on_movie_id. apply flat_map_Permutation.
  - intros x. apply Permutation_map. by apply filter_Permutation.
  - by apply Permutation_map.
Qed.

Lemma non_null_Permutation {A} (xs ys : list (option A)) :
  xs ≡ₚ ys -> non_null xs ≡ₚ non_null ys.
Proof.
  induction 1 as [|[x|] l l' _ IH|[x|] [y|] l|l1 l2 l3 _ IH1 _ IH2]; simpl; try done.
  - by constructor.
  - apply perm_swap.
  - by etransitivity.
Qed.

Lemma Qplus_swap (x y z : Q) : (x + (y + z))%Q = (y + (x + z))%Q.
Proof.
  destruct x as [a b], y as [c d], z as [e f]. unfold Qplus. simpl. f_equal.
  - rewrite !Pos2Z.inj_mul. ring.
  - lia.
Qed.

Lemma Qsum_Permutation xs ys : xs ≡ₚ ys -> Qsum xs = Qsum ys.
Proof.
  induction 1 as [|x l l' _ IH|x y l|l1 l2 l3 _ IH1 _ IH2]; simpl.
  - done.
  - by rewrite IH.
  - apply Qplus_swap.
  - congruence.
Qed.

Lemma avg_Permutation xs ys : xs ≡ₚ ys -> avg xs = avg ys.
Proof.
  intros H. apply non_null_Permutation in H. unfold avg.
  destruct (non_null xs) as [|x xs'] eqn:Ex, (non_null ys) as [|y ys'] eqn:Ey.
  - done.
  - by apply Permutation_nil_l in H.
  - by apply Permutation_nil_r in H.
  - by rewrite (Qsum_Permutation _ _ H), (Permutation_length H).
Qed.

Lemma aggregate_Permutation rows rows' t :
  rows ≡ₚ rows' ->
  aggregate (t, List.filter (same_title t) rows)
  = aggregate (t, List.filter (same_title t) rows').
Proof.
  intros H. apply (filter_Permutation (same_title t)) in H. unfold aggregate. simpl.
  by rewrite (avg_Permutation _ _ (Permutation_map f_rating H)), (Permutation_length H).
Qed.

(** The analysis query does not depend on the order of the fact rows, up to
    the order of its own rows. *)
Lemma analysis_query_Permutation rows rows' :
  rows ≡ₚ rows' -> analysis_query rows ≡ₚ analysis_query rows'.
Proof.
  intros H. rewrite !analysis_query_perm. unfold group_by_title. rewrite !map_map.
  assert (Ht : remove_dups (map f_title rows) ≡ₚ remove_dups (map f_title rows')).
  { apply NoDup_Permutation; [apply NoDup_remove_dups..|].
    intros t. rewrite !elem_of_remove_dups. by rewrite (Permutation_map f_title H). }
  rewrite (Permutation_map _ Ht). erewrite map_ext; [done|].
  intros t. simpl. by apply aggregate_Permutation.
Qed.

(** X7: neither the merge nor the analysis query depends on the order of
    the staged rows: over staging relations that hold the same rows in
    another order, merge_transform writes the same fact rows up to their
    order, and over fact relations that differ in the order of their rows
    the analysis query returns the same groups, up to the order of groups. *)
Theorem X7_row_order_irrelevant (w1 w2 : World) (m1 m2 : list movie)
    (r1 r2 : list rating) :
  stg_movies (db w1) = Some m1 -> stg_ratings (db w1) = Some r1 ->
  stg_movies (db w2) = Some m2 -> stg_ratings (db w2) = Some r2 ->
  m1 ≡ₚ m2 -> r1 ≡ₚ r2 ->
  exists f1 f2,
    fact_movie_ratings (db (world_of (merge_transform w1))) = Some f1
    /\ fact_movie_ratings (db (world_of (merge_transform w2))) = Some f2
    /\ f1 ≡ₚ f2
    /\ analysis_query f1 ≡ₚ analysis_query f2.
Proof.
  intros Hm1 Hr1 Hm2 Hr2 Pm Pr.
  exists (merge_on_movie_id (map with_rating2 r1) m1),
         (merge_on_movie_id (map with_rating2 r2) m2).
  rewrite !merge_transform_cases, Hm1, Hr1, Hm2, Hr2. simpl.
  pose proof (merge_Permutation r1 r2 m1 m2 Pr Pm) as P.
  repeat split; try done. by apply analysis_query_Permutation.
Qed.

Lemma X7_row_order_irrelevant_witness :
  exists f1 f2,
    fact_movie_ratings (db (world_of (merge_transform c1_world))) = Some f1
    /\ fact_movie_ratings (db (world_of (merge_transform c1_world_swapped))) = Some f2
    /\ f1 ≡ₚ f2
    /\ analysis_query f1 ≡ₚ analysis_query f2.
Proof.
  apply (X7_row_order_irrelevant c1_world c1_world_swapped
           [Movie 1 (Some "A") 2000] [Movie 1 (Some "A") 2000]
           [Rating 1 (Some 4%Q); Rating 1 (Some 2%Q)]
           [Rating 1 (Some 2%Q); Rating 1 (Some 4%Q)]);
    try reflexivity.
  apply perm_swap.
Defined.

(** *** The number of fact rows *)

Lemma no_movie_no_match (m : list movie) k :
  k ∉ map m_movie_id m -> List.filter (fun y => Z.eqb (m_movie_id y) k) m = [].
Proof.
  induction m as [|y m IH]; simpl; [done|]. intros H.
  apply not_elem_of_cons in H as [Hne Hm].
  destruct (Z.eqb_spec (m_movie_id y) k) as [E|_]; [by destruct Hne|by apply IH].
Qed.

Lemma unique_movie_match (m : list movie) k :
  NoDup (map m_movie_id m) ->
  length (List.filter (fun y => Z.eqb (m_movie_id y) k) m)
  = if bool_decide (k ∈ map m_movie_id m) then 1%nat else 0%nat.
Proof.
  induction m as [|y m IH]; simpl; [done|]. intros ND.
  apply NoDup_cons in ND as [Hy ND].
  destruct (Z.eqb_spec (m_movie_id y) k) as [E|Hne].
  - subst k. rewrite bool_decide_eq_true_2 by (by left).
    simpl. by rewrite no_movie_no_match.
  - rewrite (IH ND). apply (f_equal (fun b : bool => if b then 1%nat else 0%nat)).
    apply bool_decide_ext. rewrite elem_of_cons. split; [by right|].
    intros [E|H]; [by destruct Hne|done].
Qed.

Lemma merge_length_unique (r : list rating) (m : list movie) :
  NoDup (map m_movie_id m) ->
  length (merge_on_movie_id (map with_rating2 r) m) = length (List.filter (has_movie m) r).
Proof.
  intros ND. unfold merge_on_movie_id.
  induction r as [|x r IH]; simpl; [done|].
  rewrite length_app, length_map, IH, (unique_movie_match m _ ND).
  unfold has_movie at 2. simpl. by destruct (bool_decide _).
Qed.

Lemma filter_length_le {A} (p : A -> bool) l : (length (List.filter p l) <= length l)%nat.
Proof. induction l as [|x l IH]; simpl; [done|]. destruct (p x); simpl; lia. Qed.

(** X8: when no two movie rows share a movie_id, merge_transform writes one
    fact row for each rating row whose movie_id is the movie_id of a movie
    row and none for the others, so the fact relation has at most as many
    rows as stg_ratings; the count it prints is that number. *)
Theorem X8_merge_count_unique_movies (w : World) (m : list movie) (r : list rating) :
  stg_movies (db w) = Some m ->
  stg_ratings (db w) = Some r ->
  NoDup (map m_movie_id m) ->
  exists rows,
    fact_movie_ratings (db (world_of (merge_transform w))) = Some rows
    /\ length rows = length (List.filter (has_movie m) r)
    /\ (length rows <= length r)%nat
    /\ log (world_of (merge_transform w))
       = (log w ++ [Merged_records (length (List.filter (has_movie m) r))])%list.
Proof.
  intros Hm Hr ND. exists (merge_on_movie_id (map with_rating2 r) m).
  rewrite merge_transform_cases, Hm, Hr. simpl.
  rewrite (merge_length_unique r m ND).
  repeat split; try done. apply filter_length_le.
Qed.

Lemma X8_merge_count_unique_movies_witness :
  exists rows,
    fact_movie_ratings (db (world_of (merge_transform c1_world))) = Some rows
    /\ length rows
       = length (List.filter (has_movie [Movie 1 (Some "A") 2000])
                   [Rating 1 (Some 4%Q); Rating 1 (Some 2%Q)])
    /\ (length rows <= length [Rating 1 (Some 4%Q); Rating 1 (Some 2%Q)])%nat
    /\ log (world_of (merge_transform c1_world))
       = (log c1_world
            ++ [Merged_records
                  (length (List.filter (has_movie [Movie 1 (Some "A") 2000])
                             [Rating 1 (Some 4%Q); Rating 1 (Some 2%Q)]))])%list.
Proof.
  apply (X8_merge_count_unique_movies c1_world); [reflexivity|reflexivity|].
  simpl. apply NoDup_singleton.
Defined.

(** *** Merge, then validation *)

Lemma validate_cases w :
  validate_rowcount_py w =
    match fact_movie_ratings (db w) with
    | None => Raised (ProgrammingError "fact_movie_ratings") w
    | Some rows =>
        if Nat.eqb (length rows) 0
        then Raised (ValueError "fact_movie_ratings is empty!") w
        else Returned tt (mkWorld (db w) (fs w) (log w ++ [Rowcount_OK (length rows)]))
    end.
Proof.
  unfold validate_rowcount_py, select_count, read_sql. io_unfold.
  destruct (fact_movie_ratings (db w)) as [rows|]; [|done].
  by destruct (Nat.eqb (length rows) 0).
Qed.

(** X9: after a merge over two existing staging relations, validation
    returns exactly when some rating row and some movie row share a
    movie_id; when none do (disjoint movie_id sets, or an empty staging
    relation) the merge still returns, having written an empty fact
    relation, and validation raises
    ValueError("fact_movie_ratings is empty!"). *)
Theorem X9_merge_then_validate (w : World) (m : list movie) (r : list rating) :
  stg_movies (db w) = Some m ->
  stg_ratings (db w) = Some r ->
  returned (merge_transform w) = true
  /\ (returned (validate_rowcount_py (world_of (merge_transform w))) = true <->
      exists x y, x ∈ r /\ y ∈ m /\ m_movie_id y = r_movie_id x)
  /\ ((forall x y, x ∈ r -> y ∈ m -> m_movie_id y <> r_movie_id x) ->
      fact_movie_ratings (db (world_of (merge_transform w))) = Some []
      /\ validate_rowcount_py (world_of (merge_transform w)) =
           Raised (ValueError "fact_movie_ratings is empty!")
                  (world_of (merge_transform w))).
Proof.
  intros Hm Hr. rewrite merge_transform_cases, Hm, Hr. simpl.
  set (rows := merge_on_movie_id (map with_rating2 r) m).
  split; [done|]. rewrite validate_cases. simpl. fold rows.
  assert (Hrows : rows <> [] <-> exists x y, x ∈ r /\ y ∈ m /\ m_movie_id y = r_movie_id x).
  { split.
    - intros Hne. destruct rows as [|f rows'] eqn:E; [done|].
      assert (Hf : f ∈ merge_on_movie_id (map with_rating2 r) m)
        by (fold rows; rewrite E; by left).
      apply merge_elem_of in Hf as (x & y & Hx & Hy & Hid & _). by exists x, y.
    - intros (x & y & Hx & Hy & Hid) E.
      assert (Hf : Fact (r_movie_id x) (r_rating x)
                     (fmap (M:=option) (fun q => q ^ 2)%Q (r_rating x))
                     (m_title y) (m_year y) ∈ rows).
      { apply merge_elem_of. by exists x, y. }
      rewrite E in Hf. by apply not_elem_of_nil in Hf. }
  split.
  - rewrite <- Hrows. destruct rows; simpl; [|done]. split; [done|]. by intros H.
  - intros Hdis. assert (E : rows = []).
    { destruct rows as [|f rows'] eqn:E; [done|]. exfalso.
      assert (Hne : f :: rows' <> []) by done.
      apply Hrows in Hne as (x & y & Hx & Hy & Hid). by apply (Hdis x y). }
    by rewrite E.
Qed.

Lemma X9_merge_then_validate_witness :
  returned (merge_transform c1_world) = true
  /\ (returned (validate_rowcount_py (world_of (merge_transform c1_world))) = true <->
      exists x y, x ∈ [Rating 1 (Some 4%Q); Rating 1 (Some 2%Q)]
        /\ y ∈ [Movie 1 (Some "A") 2000] /\ m_movie_id y = r_movie_id x)
  /\ ((forall x y, x ∈ [Rating 1 (Some 4%Q); Rating 1 (Some 2%Q)] ->
         y ∈ [Movie 1 (Some "A") 2000] -> m_movie_id y <> r_movie_id x) ->
      fact_movie_ratings (db (world_of (merge_transform c1_world))) = Some []
      /\ validate_rowcount_py (world_of (merge_transform c1_world)) =
           Raised (ValueError "fact_movie_ratings is empty!")
                  (world_of (merge_transform c1_world))).
Proof. apply (X9_merge_then_validate c1_world); reflexivity. Defined.

(** ** The analysis query and the plotted rows *)

Lemma count_title_sum (t : option string) (ts : list (option string)) :
  NoDup ts ->
  list_sum (map (fun u => if bool_decide (t = u) then 1%nat else 0%nat) ts)
  = if bool_decide (t ∈ ts) then 1%nat else 0%nat.
Proof.
  induction 1 as [|u ts Hu ND IH]; simpl; [done|]. rewrite IH.
  destruct (decide (t = u)) as [->|Hne].
  - rewrite bool_decide_eq_true_2 by done.
    rewrite (bool_decide_eq_false_2 (u ∈ ts)) by done.
    by rewrite (bool_decide_eq_true_2 (u ∈ u :: ts)) by (by left).
  - rewrite bool_decide_eq_false_2 by done. simpl.
    apply (f_equal (fun b : bool => if b then 1%nat else 0%nat)).
    apply bool_decide_ext. rewrite elem_of_cons. split; [by right|].
    intros [E|H]; [by destruct Hne|done].
Qed.

Lemma list_sum_cons (a : nat) (l : list nat) :
  list_sum (a :: l) = (a + list_sum l)%nat.
Proof. reflexivity. Qed.

Lemma group_sizes_cons row rows (ts : list (option string)) :
  list_sum (map (fun t => length (List.filter (same_title t) (row :: rows))) ts)
  = (list_sum (map (fun u => if bool_decide (f_title row = u) then 1%nat else 0%nat) ts)
     + list_sum (map (fun t => length (List.filter (same_title t) rows)) ts))%nat.
Proof.
  induction ts as [|t ts IHt]; [done|].
  rewrite !map_cons, !list_sum_cons, IHt. cbn [List.filter]. unfold same_title at 1.
  destruct (bool_decide (f_title row = t)); simpl; lia.
Qed.

Lemma group_sizes_sum rows (ts : list (option string)) :
  NoDup ts ->
  list_sum (map (fun t => length (List.filter (same_title t) rows)) ts)
  = length (List.filter (fun row => bool_decide (f_title row ∈ ts)) rows).
Proof.
  intros ND. induction rows as [|row rows IH].
  - simpl. clear ND. induction ts as [|t ts IHt]; simpl; [done|]. apply IHt.
  - rewrite group_sizes_cons, IH, (count_title_sum _ _ ND). cbn [List.filter].
    destruct (bool_decide (f_title row ∈ ts)); simpl; lia.
Qed.

Lemma filter_all {A} (f : A -> bool) (l : list A) :
  (forall x, x ∈ l -> f x = true) -> List.filter f l = l.
Proof.
  induction l as [|x l IH]; intros H; [done|]. simpl.
  rewrite (H x) by (by left). f_equal. apply IH. intros y Hy. apply H. by right.
Qed.

(** X10: the counts of the analysis query add up to the number of fact
    rows: every fact row is counted in exactly one group. *)
Theorem X10_analysis_counts_total (rows : list fact) :
  list_sum (map a_n (analysis_query rows)) = length rows.
Proof.
  rewrite (Permutation_map a_n (analysis_query_perm rows)).
  unfold group_by_title. rewrite !map_map. simpl.
  rewrite (group_sizes_sum rows _ (NoDup_remove_dups _)).
  f_equal. apply filter_all. intros x Hx. apply bool_decide_eq_true_2.
  apply elem_of_remove_dups, list_elem_of_fmap. by exists x.
Qed.

Lemma ascending_spec a b : ascending a b <-> asc_order a b.
Proof.
  unfold ascending, ascendingb, asc_order.
  destruct (a_avg_rating a) as [x|], (a_avg_rating b) as [y|]; simpl; try tauto.
  rewrite Is_true_true. apply Qle_bool_iff.
Qed.

#[global] Instance ascending_total : Total ascending.
Proof.
  intros a b. rewrite !ascending_spec. unfold asc_order.
  destruct (a_avg_rating a) as [x|], (a_avg_rating b) as [y|]; try tauto.
  destruct (Qlt_le_dec x y) as [L|G]; [left; by apply Qlt_le_weak|by right].
Qed.

#[global] Instance ascending_trans : Transitive ascending.
Proof.
  intros a b c. rewrite !ascending_spec. unfold asc_order.
  destruct (a_avg_rating a) as [x|], (a_avg_rating b) as [y|],
    (a_avg_rating c) as [z|]; try tauto.
  apply Qle_trans.
Qed.

(** X11: the rows handed to the plot are the first ten rows of the
    analysis query (all of them when there are fewer), rearranged by
    ascending mean with missing means last; every row left out comes no
    earlier in the query's order than every plotted row. *)
Theorem X11_top10_rows (rows : list fact) :
  let df := analysis_query rows in
  top10 df ≡ₚ take 10 df
  /\ length (top10 df) = Nat.min 10 (length df)
  /\ StronglySorted asc_order (top10 df)
  /\ (forall a b, a ∈ top10 df -> b ∈ drop 10 df -> desc_order a b).
Proof.
  intros df.
  assert (P : top10 df ≡ₚ take 10 df) by apply merge_sort_Permutation.
  split; [exact P|]. split; [|split].
  - rewrite (Permutation_length P). apply length_take.
  - apply (StronglySorted_impl ascending); [intros x y; apply ascending_spec|].
    apply StronglySorted_merge_sort; apply _.
  - intros a b Ha Hb. rewrite P in Ha.
    pose proof (analysis_query_sorted rows) as S. fold df in S.
    rewrite <- (take_drop 10 df) in S.
    by apply (StronglySorted_app_1_elem_of _ _ _ _ _ S).
Qed.

(** ** How the analysis task fails *)

Lemma made_output_entries w : out_entries (made_output w) = out_entries w.
Proof.
  unfold out_entries, made_output.
  destruct (fs w !! OUTPUT_DIR) as [[c|d]|] eqn:Ho; rewrite ?Ho; try done.
  simpl. by rewrite lookup_insert_eq.
Qed.

(** X12: when simple_analysis raises, the store and the entries of the output
    directory are as before (no artifact is written or replaced), and the
    exception is one of four: the output path is a regular file (raised by
    makedirs, outside the try: the world is unchanged and nothing is
    printed), the fact relation is missing, the query returned no row, or
    avg_ratings.csv is a directory; in the last three cases the last two
    lines printed are the failure message and the traceback of that
    exception.  An exception of the plotting backend is never raised. *)
Theorem X12_analysis_failure_reported (render : list agg_row -> exn + string)
    (w w' : World) (e : exn) :
  simple_analysis render w = Raised e w' ->
  db w' = db w
  /\ out_entries w' = out_entries w
  /\ ((e = FileExistsError OUTPUT_DIR /\ w' = w)
      \/ ((e = ProgrammingError "fact_movie_ratings"
           \/ e = ValueError "Analysis query returned 0 rows — check upstream merge."
           \/ e = IsADirectoryError (join OUTPUT_DIR "avg_ratings.csv"))
          /\ exists mid, log w' =
               (log w ++ mid ++ [perform_analysis_failed e; Traceback e])%list)).
Proof.
  rewrite simple_analysis_unfold.
  assert (G : forall ls e0,
    (e0 = ProgrammingError "fact_movie_ratings"
     \/ e0 = ValueError "Analysis query returned 0 rows — check upstream merge."
     \/ e0 = IsADirectoryError (join OUTPUT_DIR "avg_ratings.csv")) ->
    @Raised unit e0
        (logged (ls ++ [perform_analysis_failed e0; Traceback e0])%list (made_output w))
      = Raised e w' ->
    db w' = db w /\ out_entries w' = out_entries w
    /\ ((e = FileExistsError OUTPUT_DIR /\ w' = w)
        \/ ((e = ProgrammingError "fact_movie_ratings"
             \/ e = ValueError "Analysis query returned 0 rows — check upstream merge."
             \/ e = IsADirectoryError (join OUTPUT_DIR "avg_ratings.csv"))
            /\ exists mid, log w' =
                 (log w ++ mid ++ [perform_analysis_failed e; Traceback e])%list))).
  { intros ls e0 He0 [= <- <-]. split; [apply made_output_db|].
    split; [apply (made_output_entries w)|]. right. split; [done|]. exists ls.
    unfold logged. cbn [log]. rewrite made_output_log.
    generalize (log w). induction ls as [|l ls IH]; intros acc; simpl.
    - by rewrite <- app_assoc.
    - rewrite IH. by rewrite <- app_assoc. }
  destruct (fs w !! OUTPUT_DIR) as [[c|d]|] eqn:Ho.
  { intros [= <- <-]. split; [done|]. split; [done|]. by left. }
  all: assert (Hfile : forall c, fs w !! OUTPUT_DIR <> Some (File c))
         by (intros c; congruence).
  all: pose proof (made_output_dir w Hfile) as Hv.
  all: destruct (fact_movie_ratings (db w)) as [rows|] eqn:Hf.
  all: try (rewrite (analysis_no_relation render) by (by rewrite made_output_db);
            apply (G []); by left).
  all: assert (Hfv : fact_movie_ratings (db (made_output w)) = Some rows)
         by (by rewrite made_output_db).
  all: rewrite (analysis_cases render _ _ _ Hv Hfv); simpl.
  all: destruct (bool_decide (analysis_query rows = []));
         [apply (G [Analysis_row_count _]); right; by left|].
  all: destruct (out_entries w !! "avg_ratings.csv") as [[c|x]|];
         try (apply (G [Analysis_row_count _]); right; by right).
  all: destruct (render _) as [e1|png]; [done|].
  all: by destruct (_ !! "avg_ratings_top10.png") as [[c'|x']|].
Qed.

Lemma X12_analysis_failure_reported_witness :
  simple_analysis no_display c1_world =
    Raised (ProgrammingError "fact_movie_ratings")
           (world_of (simple_analysis no_display c1_world))
  /\ db (world_of (simple_analysis no_display c1_world)) = db c1_world
  /\ out_entries (world_of (simple_analysis no_display c1_world)) = out_entries c1_world
  /\ ((ProgrammingError "fact_movie_ratings" = FileExistsError OUTPUT_DIR
       /\ world_of (simple_analysis no_display c1_world) = c1_world)
      \/ ((ProgrammingError "fact_movie_ratings" = ProgrammingError "fact_movie_ratings"
           \/ ProgrammingError "fact_movie_ratings"
              = ValueError "Analysis query returned 0 rows — check upstream merge."
           \/ ProgrammingError "fact_movie_ratings"
              = IsADirectoryError (join OUTPUT_DIR "avg_ratings.csv"))
          /\ exists mid, log (world_of (simple_analysis no_display c1_world)) =
               (log c1_world ++ mid
                  ++ [perform_analysis_failed (ProgrammingError "fact_movie_ratings");
                      Traceback (ProgrammingError "fact_movie_ratings")])%list)).
Proof.
  split; [reflexivity|].
  apply (X12_analysis_failure_reported no_display c1_world). reflexivity.
Defined.

(** ** Running the analysis again *)

Lemma made_output_id v d : fs v !! OUTPUT_DIR = Some (Dir d) -> made_output v = v.
Proof. intros H. unfold made_output. by rewrite H. Qed.

Lemma out_entries_dir v d : fs v !! OUTPUT_DIR = Some (Dir d) -> out_entries v = d.
Proof. intros H. unfold out_entries. by rewrite H. Qed.

(** In a world that already holds the artifacts of the rows, the analysis
    returns and leaves the file system as it is. *)
Lemma analysis_settled render v rows dd :
  fact_movie_ratings (db v) = Some rows ->
  rows <> [] ->
  fs v !! OUTPUT_DIR = Some (Dir dd) ->
  dd !! "avg_ratings.csv" = Some (File (Csv (agg_frame (analysis_query rows)))) ->
  (forall png, render (top10 (analysis_query rows)) = inr png ->
     dd !! "avg_ratings_top10.png" = Some (File (Bytes png))
     \/ exists x, dd !! "avg_ratings_top10.png" = Some (Dir x)) ->
  returned (simple_analysis render v) = true
  /\ fs (world_of (simple_analysis render v)) = fs v.
Proof.
  intros Hf Hne Ho Hc Hp.
  assert (Hw : primary_writable v = true).
  { unfold primary_writable. by rewrite Ho, (out_entries_dir _ _ Ho), Hc. }
  rewrite (simple_analysis_primary render v rows Hf Hne Hw).
  rewrite (made_output_id _ _ Ho), (out_entries_dir _ _ Ho).
  assert (E1 : <["avg_ratings.csv" := File (Csv (agg_frame (analysis_query rows)))]> dd = dd)
    by (by apply insert_id).
  assert (E2 : <[OUTPUT_DIR := Dir dd]> (fs v) = fs v) by (by apply insert_id).
  destruct (render _) as [e|png] eqn:R; simpl.
  - split; [done|]. by rewrite E1, E2.
  - destruct (Hp png eq_refl) as [F|[x F]]; rewrite F; simpl; (split; [done|]).
    + rewrite E1, insert_insert_eq, (insert_id dd) by done. exact E2.
    + by rewrite E1, E2.
Qed.

(** X13: when the fact relation has rows and the primary artifact can be
    written, the analysis returns, and running it again over the world it
    leaves returns too and leaves the store and the file system exactly as
    the first run left them: the artifacts are overwritten in place. *)
Theorem X13_analysis_rerun (render : list agg_row -> exn + string)
    (w : World) (rows : list fact) :
  fact_movie_ratings (db w) = Some rows ->
  rows <> [] ->
  primary_writable w = true ->
  let w1 := world_of (simple_analysis render w) in
  returned (simple_analysis render w) = true
  /\ returned (simple_analysis render w1) = true
  /\ db (world_of (simple_analysis render w1)) = db w1
  /\ fs (world_of (simple_analysis render w1)) = fs w1.
Proof.
  intros Hf Hne Hw w1.
  assert (Hdb : db w1 = db w) by apply simple_analysis_frame.
  assert (R1 : returned (simple_analysis render w) = true
    /\ exists dd, fs w1 !! OUTPUT_DIR = Some (Dir dd)
       /\ dd !! "avg_ratings.csv" = Some (File (Csv (agg_frame (analysis_query rows))))
       /\ (forall png, render (top10 (analysis_query rows)) = inr png ->
             dd !! "avg_ratings_top10.png" = Some (File (Bytes png))
             \/ exists x, dd !! "avg_ratings_top10.png" = Some (Dir x))).
  { subst w1. rewrite (simple_analysis_primary render w rows Hf Hne Hw).
    destruct (render _) as [e|png] eqn:R; simpl.
    - split; [done|]. eexists. split; [apply lookup_insert_eq|].
      split; [apply lookup_insert_eq|]. intros png. discriminate.
    - destruct (out_entries w !! "avg_ratings_top10.png") as [[c|x]|] eqn:E; simpl.
      all: split; [done|]; eexists; (split; [apply lookup_insert_eq|]).
      + split; [by rewrite lookup_insert_ne, lookup_insert_eq|].
        intros ? [= <-]. left. apply lookup_insert_eq.
      + split; [apply lookup_insert_eq|]. intros ? _. right. exists x.
        by rewrite lookup_insert_ne.
      + split; [by rewrite lookup_insert_ne, lookup_insert_eq|].
        intros ? [= <-]. left. apply lookup_insert_eq. }
  destruct R1 as (Hr & dd & Ho & Hc & Hp). split; [exact Hr|].
  assert (Hf1 : fact_movie_ratings (db w1) = Some rows) by (by rewrite Hdb).
  destruct (analysis_settled render w1 rows dd Hf1 Hne Ho Hc Hp) as [H1 H2].
  split; [exact H1|]. split; [apply simple_analysis_frame|exact H2].
Qed.

Lemma X13_analysis_rerun_witness :
  returned (simple_analysis no_display fact_world) = true
  /\ returned (simple_analysis no_display
                 (world_of (simple_analysis no_display fact_world))) = true
  /\ db (world_of (simple_analysis no_display
                     (world_of (simple_analysis no_display fact_world))))
     = db (world_of (simple_analysis no_display fact_world))
  /\ fs (world_of (simple_analysis no_display
                     (world_of (simple_analysis no_display fact_world))))
     = fs (world_of (simple_analysis no_display fact_world)).
Proof.
  apply (X13_analysis_rerun no_display fact_world example_facts);
    [reflexivity|discriminate|reflexivity].
Defined.

(** ** When the file cleanup returns *)

(** A directory among the ".tmp" names listed stops the loop. *)
Lemma cleanup_loop_raises names : forall w d x e,
  fs w !! DATA_DIR = Some (Dir d) ->
  x ∈ names -> endswith x ".tmp" = true -> d !! x = Some (Dir e) ->
  returned (for_each names remove_if_tmp w) = false.
Proof.
  induction names as [|y names IH]; intros w d x e Hd Hx T Hx'.
  - by apply elem_of_nil in Hx.
  - rewrite for_each_cons, (remove_if_tmp_cases _ _ _ Hd).
    destruct (endswith y ".tmp") eqn:Ty.
    + destruct (d !! y) as [[c|e']|] eqn:Ey; [|done|done].
      assert (Hne : x <> y) by (intros ->; congruence).
      apply elem_of_cons in Hx as [?|Hx]; [done|].
      apply (IH _ (delete y d) x e); [apply lookup_insert_eq|done|done|].
      by rewrite lookup_delete_ne.
    + assert (Hne : x <> y) by (intros ->; congruence).
      apply elem_of_cons in Hx as [?|Hx]; [done|]. by apply (IH w d x e).
Qed.

(** The world [cleanup_files] leaves when it runs to its end. *)
Lemma cleanup_files_success w d :
  fs w !! DATA_DIR = Some (Dir d) ->
  map_Forall (fun f n => endswith f ".tmp" = true -> is_file n = true) d ->
  (forall c, fs w !! tmp_dir <> Some (File c)) ->
  exists w',
    cleanup_files w = Returned tt w'
    /\ db w' = db w
    /\ fs w' !! DATA_DIR = Some (Dir (filter (fun kv => endswith kv.1 ".tmp" = false) d))
    /\ fs w' !! tmp_dir =
         match fs w !! tmp_dir with Some _ => Some (Dir ∅) | None => None end
    /\ forall p, p <> DATA_DIR -> p <> tmp_dir -> fs w' !! p = fs w !! p.
Proof.
  intros Hd Hfiles Htmp.
  assert (Hd1 : fs (after_reset w) !! DATA_DIR = Some (Dir d))
    by (by rewrite after_reset_data).
  destruct (cleanup_loop_success (map fst (map_to_list d))
              (NoDup_fst_map_to_list d) (after_reset w) d Hd1)
    as (w' & d' & Hrun & Hd' & Hlook).
  { intros f Hf T. apply elem_of_listing in Hf as [n Hn].
    specialize (Hfiles f n Hn T). destruct n; [eauto|done]. }
  destruct (cleanup_loop_frame (map fst (map_to_list d)) (after_reset w) d Hd1)
    as (Hdb & Hfs & _).
  rewrite Hrun in Hdb, Hfs. simpl in Hdb, Hfs.
  exists w'. split; [|split; [|split; [|split]]].
  - rewrite cleanup_files_unfold, Hd1.
    destruct (fs w !! tmp_dir) as [[c|t]|] eqn:E; [by destruct (Htmp c)|done|done].
  - by rewrite Hdb, after_reset_db.
  - rewrite Hd'. do 2 f_equal. apply map_eq. intros f. rewrite Hlook.
    destruct (endswith f ".tmp") eqn:T.
    + destruct (bool_decide (f ∈ map fst (map_to_list d))) eqn:B; simpl.
      * symmetry. apply map_lookup_filter_None. right. intros n _. simpl. congruence.
      * apply bool_decide_eq_false in B. rewrite elem_of_listing in B.
        assert (E : d !! f = None) by (destruct (d !! f); [by destruct B; eauto|done]).
        rewrite E. symmetry. apply map_lookup_filter_None. by left.
    + rewrite andb_false_r. destruct (d !! f) as [n|] eqn:E.
      * symmetry. apply map_lookup_filter_Some. by split.
      * symmetry. apply map_lookup_filter_None. by left.
  - rewrite Hfs by done. rewrite after_reset_tmp.
    destruct (fs w !! tmp_dir) as [[c|t]|] eqn:E; [by destruct (Htmp c)|done|done].
  - intros p Hp Hq. rewrite Hfs by done. by apply after_reset_other.
Qed.

(** What must hold before [cleanup_files] for it to return. *)
Lemma cleanup_files_returned_inv w :
  returned (cleanup_files w) = true ->
  (forall c, fs w !! tmp_dir <> Some (File c))
  /\ exists d, fs w !! DATA_DIR = Some (Dir d)
       /\ map_Forall (fun f n => endswith f ".tmp" = true -> is_file n = true) d.
Proof.
  rewrite cleanup_files_unfold. intros R.
  assert (Htmp : forall c, fs w !! tmp_dir <> Some (File c)).
  { intros c E. by rewrite E in R. }
  split; [exact Htmp|].
  assert (R' : returned
    match fs (after_reset w) !! DATA_DIR with
    | Some (Dir d) => for_each (map fst (map_to_list d)) remove_if_tmp (after_reset w)
    | Some (File _) => Raised (NotADirectoryError DATA_DIR) (after_reset w)
    | None => Raised (FileNotFoundError DATA_DIR) (after_reset w)
    end = true).
  { destruct (fs w !! tmp_dir) as [[c|t]|]; [by destruct (Htmp c)|done|done]. }
  clear R. pose proof (after_reset_data w) as Hd.
  destruct (fs (after_reset w) !! DATA_DIR) as [[c|d]|] eqn:E; [done| |done].
  exists d. split; [done|]. intros f n Hn T. destruct n as [c|e]; [done|].
  assert (Hf : f ∈ map fst (map_to_list d)) by (apply elem_of_listing; eauto).
  rewrite (cleanup_loop_raises _ _ _ _ _ E Hf T Hn) in R'. done.
Qed.

(** X14: cleanup_files returns exactly when the scratch path is not a
    regular file, the data directory is a directory, and none of its entries
    whose name ends in ".tmp" is a directory. *)
Theorem X14_cleanup_files_returns_iff (w : World) :
  returned (cleanup_files w) = true
  <-> (forall c, fs w !! tmp_dir <> Some (File c))
      /\ exists d, fs w !! DATA_DIR = Some (Dir d)
           /\ map_Forall (fun f n => endswith f ".tmp" = true -> is_file n = true) d.
Proof.
  split; [apply cleanup_files_returned_inv|].
  intros (Htmp & d & Hd & Hfiles).
  destruct (cleanup_files_success w d Hd Hfiles Htmp) as (w' & -> & _). done.
Qed.

(** ** Running the file cleanup again, and beside the staging cleanup *)

(** X15: when cleanup_files returns, running it again over the world it
    leaves returns too and changes neither the store nor the file system:
    the scratch directory is already empty and no ".tmp" entry is left. *)
Theorem X15_cleanup_files_rerun (w : World) :
  returned (cleanup_files w) = true ->
  let w1 := world_of (cleanup_files w) in
  returned (cleanup_files w1) = true
  /\ db (world_of (cleanup_files w1)) = db w1
  /\ fs (world_of (cleanup_files w1)) = fs w1.
Proof.
  intros R w1. subst w1.
  destruct (cleanup_files_returned_inv w R) as (Htmp & d & Hd & Hfiles).
  destruct (cleanup_files_success w d Hd Hfiles Htmp)
    as (w1 & -> & Hdb1 & Hd1 & Ht1 & Ho1). simpl.
  set (d1 := filter (fun kv : string * node => endswith kv.1 ".tmp" = false) d) in *.
  assert (Hfiles1 : map_Forall
            (fun f n => endswith f ".tmp" = true -> is_file n = true) d1).
  { intros f n Hn T. apply map_lookup_filter_Some in Hn as [_ Hn]. simpl in Hn.
    congruence. }
  assert (Htmp1 : forall c, fs w1 !! tmp_dir <> Some (File c)).
  { intros c. rewrite Ht1. by destruct (fs w !! tmp_dir). }
  destruct (cleanup_files_success w1 d1 Hd1 Hfiles1 Htmp1)
    as (w2 & -> & Hdb2 & Hd2 & Ht2 & Ho2). simpl.
  split; [done|]. split; [done|]. apply map_eq. intros p.
  destruct (decide (p = DATA_DIR)) as [->|Hp].
  - rewrite Hd2, Hd1. do 2 f_equal. apply map_filter_id.
    intros f n Hn. by apply map_lookup_filter_Some in Hn as [_ Hn].
  - destruct (decide (p = tmp_dir)) as [->|Hq]; [|by apply Ho2].
    rewrite Ht2, Ht1. by destruct (fs w !! tmp_dir).
Qed.

Lemma X15_cleanup_files_rerun_witness :
  returned (cleanup_files (world_of (cleanup_files example_world))) = true
  /\ db (world_of (cleanup_files (world_of (cleanup_files example_world))))
     = db (world_of (cleanup_files example_world))
  /\ fs (world_of (cleanup_files (world_of (cleanup_files example_world))))
     = fs (world_of (cleanup_files example_world)).
Proof. apply (X15_cleanup_files_rerun example_world). reflexivity. Defined.

(** The loop of [cleanup_files] reads and writes the file system only. *)
Lemma cleanup_loop_fs_only names : forall w1 w2 d,
  fs w1 = fs w2 -> fs w1 !! DATA_DIR = Some (Dir d) ->
  returned (for_each names remove_if_tmp w1) = returned (for_each names remove_if_tmp w2)
  /\ fs (world_of (for_each names remove_if_tmp w1))
     = fs (world_of (for_each names remove_if_tmp w2)).
Proof.
  induction names as [|x names IH]; intros w1 w2 d E Hd1; [done|].
  assert (Hd2 : fs w2 !! DATA_DIR = Some (Dir d)) by (by rewrite <- E).
  rewrite !for_each_cons, (remove_if_tmp_cases _ _ _ Hd1), (remove_if_tmp_cases _ _ _ Hd2).
  destruct (endswith x ".tmp"); [|by apply (IH w1 w2 d)].
  destruct (d !! x) as [[c|e]|]; [|done|done].
  apply (IH _ _ (delete x d)); simpl; [by rewrite E|apply lookup_insert_eq].
Qed.

Lemma after_reset_fs_only w1 w2 :
  fs w1 = fs w2 -> fs (after_reset w1) = fs (after_reset w2).
Proof.
  intros E. unfold after_reset. rewrite <- E.
  destruct (fs w1 !! tmp_dir) as [[c|t]|]; simpl; by rewrite ?E.
Qed.

Lemma cleanup_files_fs_only w1 w2 :
  fs w1 = fs w2 ->
  returned (cleanup_files w1) = returned (cleanup_files w2)
  /\ fs (world_of (cleanup_files w1)) = fs (world_of (cleanup_files w2)).
Proof.
  intros E. pose proof (after_reset_fs_only w1 w2 E) as E'.
  rewrite !cleanup_files_unfold, <- E, <- E'.
  destruct (fs w1 !! tmp_dir) as [[c|t]|]; [done| |].
  all: destruct (fs (after_reset w1) !! DATA_DIR) as [[c|d]|] eqn:Hd; try done.
  all: by apply (cleanup_loop_fs_only _ _ _ d).
Qed.

(** X16: the two cleanup tasks, which the DAG leaves unordered, do not
    interfere: cleanup_files ends the same way whether or not the staging
    relations were dropped first, and either order leaves the same store and
    the same file system. *)
Theorem X16_cleanups_commute (w : World) :
  let a := world_of (cleanup_files (world_of (cleanup_intermediate w))) in
  let b := world_of (cleanup_intermediate (world_of (cleanup_files w))) in
  returned (cleanup_files (world_of (cleanup_intermediate w))) = returned (cleanup_files w)
  /\ returned (cleanup_intermediate (world_of (cleanup_files w))) = true
  /\ db a = db b
  /\ fs a = fs b.
Proof.
  intros a b. subst a b. rewrite !cleanup_intermediate_eq.
  cbn [world_of returned db fs].
  set (w0 := mkWorld _ (fs w) _).
  destruct (cleanup_files_fs_only w0 w eq_refl) as [R F].
  split; [exact R|]. split; [done|]. split; [|exact F].
  rewrite cleanup_files_db. subst w0. simpl. by rewrite cleanup_files_db.
Qed.

(** ** The end of a run: analysis, then the two cleanup tasks *)

Lemma attempt_succeeded n (body : io unit) w :
  (attempt n body w).1 = succeeded ->
  exists w0, body w0 = Returned tt (attempt n body w).2.
Proof.
  revert w. induction n as [|n IH]; intros w; unfold attempt; fold attempt.
  - destruct (body w) as [[] w'|e w'] eqn:E; [|done]. intros _. by exists w.
  - destruct (body w) as [[] w'|e w'] eqn:E; [intros _; by exists w|apply IH].
Qed.

(** What a returning [simple_analysis] found and left. *)
Lemma analysis_returned_inv render w0 v :
  simple_analysis render w0 = Returned tt v ->
  exists rows d,
    fact_movie_ratings (db w0) = Some rows /\ rows <> [] /\ db v = db w0
    /\ fs v !! OUTPUT_DIR = Some (Dir d)
    /\ d !! "avg_ratings.csv" = Some (File (Csv (agg_frame (analysis_query rows)))).
Proof.
  rewrite simple_analysis_unfold.
  destruct (fs w0 !! OUTPUT_DIR) as [[c|d0]|] eqn:Ho; [done| |].
  all: assert (Hfile : forall c, fs w0 !! OUTPUT_DIR <> Some (File c))
         by (intros c; congruence).
  all: pose proof (made_output_dir w0 Hfile) as Hv.
  all: destruct (fact_movie_ratings (db w0)) as [rows|] eqn:Hf;
         [|by rewrite (analysis_no_relation render) by (by rewrite made_output_db)].
  all: assert (Hfv : fact_movie_ratings (db (made_output w0)) = Some rows)
         by (by rewrite made_output_db).
  all: rewrite (analysis_cases render _ _ _ Hv Hfv); simpl.
  all: destruct (bool_decide (analysis_query rows = [])) eqn:B; [done|].
  all: apply bool_decide_eq_false in B; rewrite analysis_query_nil in B.
  all: destruct (out_entries w0 !! "avg_ratings.csv") as [[c|x]|]; [|done|].
  all: destruct (render _) as [e|png]; simpl.
  all: try destruct (_ !! "avg_ratings_top10.png") as [[c'|x']|]; simpl.
  all: intros [= <-]; exists rows; eexists; simpl.
  all: split; [done|]; split; [done|]; split; [apply made_output_db|].
  all: split; [apply lookup_insert_eq|].
  all: by rewrite ?(lookup_insert_ne _ "avg_ratings_top10.png") by done;
         rewrite lookup_insert_eq.
Qed.

Lemma cleanup_files_output w :
  fs (world_of (cleanup_files w)) !! OUTPUT_DIR = fs w !! OUTPUT_DIR.
Proof.
  rewrite cleanup_files_unfold.
  destruct (fs w !! tmp_dir) as [[c|t]|] eqn:E; [done| |].
  all: destruct (fs (after_reset w) !! DATA_DIR) as [[c|d]|] eqn:Hd;
    [by apply after_reset_other| |by apply after_reset_other].
  all: destruct (cleanup_loop_frame (map fst (map_to_list d)) _ _ Hd) as (_ & Hfs & _).
  all: rewrite Hfs by done; by apply after_reset_other.
Qed.

(** The file cleanup as a task instance, with its retries: the store and the
    output directory are as before. *)
Lemma attempt_cleanup_files n w :
  db (attempt n cleanup_files w).2 = db w
  /\ fs (attempt n cleanup_files w).2 !! OUTPUT_DIR = fs w !! OUTPUT_DIR.
Proof.
  apply (attempt_rel
           (fun w w' => db w' = db w /\ fs w' !! OUTPUT_DIR = fs w !! OUTPUT_DIR)).
  - intros w1 w2 w3 [D1 F1] [D2 F2]. split; congruence.
  - intros v. split; [apply cleanup_files_db|apply cleanup_files_output].
Qed.

(** The last three tasks of a run, from any state of the run, the cleanup
    tasks in either order. *)
Lemma analyze_then_cleanup render sw a b :
  (a = t_cleanup_db /\ b = t_cleanup_files) \/ (a = t_cleanup_files /\ b = t_cleanup_db) ->
  let r := fold_left (run_task render) [t_analyze; a; b] sw in
  (r.1 t_analyze = succeeded ->
     r.1 t_cleanup_db = succeeded
     /\ stg_movies (db r.2) = None /\ stg_ratings (db r.2) = None
     /\ exists rows d,
          fact_movie_ratings (db r.2) = Some rows /\ rows <> []
          /\ fs r.2 !! OUTPUT_DIR = Some (Dir d)
          /\ d !! "avg_ratings.csv" = Some (File (Csv (agg_frame (analysis_query rows)))))
  /\ (r.1 t_analyze <> succeeded ->
        r.1 t_cleanup_db = skipped /\ r.1 t_cleanup_files = skipped
        /\ stg_movies (db r.2) = stg_movies (db sw.2)
        /\ stg_ratings (db r.2) = stg_ratings (db sw.2)).
Proof.
  intros Hab. cbn [fold_left].
  destruct (ready sw.1 t_analyze) eqn:Rd.
  - rewrite (run_task_ready render sw t_analyze Rd). cbn [python_callable].
    pose proof (attempt_succeeded retries (simple_analysis render) sw.2) as Hs.
    assert (Hdb : db (attempt retries (simple_analysis render) sw.2).2 = db sw.2).
    { apply (attempt_rel (fun w w' => db w' = db w)); [congruence|].
      intros v. apply simple_analysis_frame. }
    destruct (attempt_status retries (simple_analysis render) sw.2) as [H|H].
    + destruct (Hs H) as [w0 Hw0].
      destruct (analysis_returned_inv render w0 _ Hw0) as (rows & d & Hf & Hne & Hd0 & Ho & Hc).
      rewrite H. clear Hs Hdb H.
      set (v := (attempt retries (simple_analysis render) sw.2).2) in *.
      assert (Hfv : fact_movie_ratings (db v) = Some rows) by (by rewrite Hd0).
      destruct Hab as [[-> ->]|[-> ->]].
      * rewrite (run_task_ready render _ t_cleanup_db) by reflexivity.
        cbn [python_callable fst snd].
        rewrite (attempt_returned _ _ _ _ _ (cleanup_intermediate_eq v)). cbn [fst snd].
        rewrite (run_task_ready render _ t_cleanup_files) by reflexivity.
        cbn [python_callable fst snd].
        match goal with |- context [attempt retries cleanup_files ?x] =>
          destruct (attempt_cleanup_files retries x) as [D F] end.
        split; [|intros N; by destruct N].
        intros _. split; [reflexivity|]. rewrite D. cbn [db stg_movies stg_ratings].
        split; [done|]. split; [done|]. exists rows, d. cbn [fact_movie_ratings].
        split; [done|]. split; [done|]. split; [|done]. by rewrite F.
      * rewrite (run_task_ready render _ t_cleanup_files) by reflexivity.
        cbn [python_callable fst snd].
        destruct (attempt_cleanup_files retries v) as [D F].
        rewrite (run_task_ready render _ t_cleanup_db) by reflexivity.
        cbn [python_callable fst snd].
        match goal with |- context [attempt retries cleanup_intermediate ?x] =>
          rewrite (attempt_returned retries _ _ _ _ (cleanup_intermediate_eq x)) end.
        cbn [fst snd db fs stg_movies stg_ratings fact_movie_ratings].
        split; [|intros N; by destruct N].
        intros _. split; [reflexivity|]. split; [done|]. split; [done|].
        exists rows, d. rewrite D, F. done.
    + rewrite H. clear Hs.
      destruct Hab as [[-> ->]|[-> ->]].
      all: do 2 (rewrite run_task_blocked by reflexivity; cbn [fst snd]).
      all: split; [intros N; discriminate N|].
      all: intros _; split; [reflexivity|]; split; [reflexivity|]; by rewrite Hdb.
  - rewrite (run_task_blocked render sw t_analyze Rd).
    destruct Hab as [[-> ->]|[-> ->]].
    all: do 2 (rewrite run_task_blocked by reflexivity; cbn [fst snd]).
    all: split; [intros N; discriminate N|].
    all: intros _; split; [reflexivity|]; split; [reflexivity|]; done.
Qed.

(** X17: in every schedule of the DAG, when the analysis task succeeded the
    staging cleanup succeeded too, and the run ends with both staging
    relations dropped, a non-empty fact relation, and avg_ratings.csv in the
    output directory holding the analysis of exactly those fact rows; when
    the analysis task did not succeed, both cleanup tasks are skipped and
    the staging relations are left as the first four tasks left them. *)
Theorem X17_run_end (render : list agg_row -> exn + string)
    (order : list task) (w : World) :
  order ∈ schedules ->
  let r := run_in render order w in
  let v := (fold_left (run_task render) (take 4 order) (fun _ => pending, w)).2 in
  (r.1 t_analyze = succeeded ->
     r.1 t_cleanup_db = succeeded
     /\ stg_movies (db r.2) = None /\ stg_ratings (db r.2) = None
     /\ exists rows d,
          fact_movie_ratings (db r.2) = Some rows /\ rows <> []
          /\ fs r.2 !! OUTPUT_DIR = Some (Dir d)
          /\ d !! "avg_ratings.csv" = Some (File (Csv (agg_frame (analysis_query rows)))))
  /\ (r.1 t_analyze <> succeeded ->
        r.1 t_cleanup_db = skipped /\ r.1 t_cleanup_files = skipped
        /\ stg_movies (db r.2) = stg_movies (db v)
        /\ stg_ratings (db r.2) = stg_ratings (db v)).
Proof.
  intros Ho r v. subst r v. unfold schedules in Ho. unfold run_in.
  repeat (apply elem_of_cons in Ho as [->|Ho]); [| | | |by apply not_elem_of_nil in Ho].
  all: match goal with
       | |- context [fold_left _ [?a; ?b; ?c; ?d; ?e; ?f; ?g] _] =>
           change (take 4 [a; b; c; d; e; f; g]) with [a; b; c; d];
           change [a; b; c; d; e; f; g] with ([a; b; c; d] ++ [e; f; g])%list
       end.
  all: rewrite fold_left_app.
  all: match goal with
       | |- context [fold_left _ [t_analyze; ?a; ?b] ?sw] =>
           assert (Hab : (a = t_cleanup_db /\ b = t_cleanup_files)
                         \/ (a = t_cleanup_files /\ b = t_cleanup_db))
             by (first [left; split; reflexivity | right; split; reflexivity]);
           pose proof (analyze_then_cleanup render sw a b Hab) as L
       end.
  all: cbv zeta in L; exact L.
Qed.

Lemma X17_run_end_witness :
  swapped_schedule ∈ schedules
  /\ (run_in no_display swapped_schedule example_world).1 t_analyze = succeeded
  /\ (let r := run_in no_display swapped_schedule example_world in
      let v := (fold_left (run_task no_display) (take 4 swapped_schedule)
                  (fun _ => pending, example_world)).2 in
      (r.1 t_analyze = succeeded ->
         r.1 t_cleanup_db = succeeded
         /\ stg_movies (db r.2) = None /\ stg_ratings (db r.2) = None
         /\ exists rows d,
              fact_movie_ratings (db r.2) = Some rows /\ rows <> []
              /\ fs r.2 !! OUTPUT_DIR = Some (Dir d)
              /\ d !! "avg_ratings.csv"
                   = Some (File (Csv (agg_frame (analysis_query rows)))))
      /\ (r.1 t_analyze <> succeeded ->
            r.1 t_cleanup_db = skipped /\ r.1 t_cleanup_files = skipped
            /\ stg_movies (db r.2) = stg_movies (db v)
            /\ stg_ratings (db r.2) = stg_ratings (db v))).
Proof.
  assert (H : swapped_schedule ∈ schedules)
    by (apply list_elem_of_In; simpl; tauto).
  split; [exact H|]. split; [vm_compute; reflexivity|].
  exact (X17_run_end no_display swapped_schedule example_world H).
Defined.

(** ** When the loaders return *)







